(** * Locomotion and ground contact of the VR tutorial scenes

    A shallow embedding of the per-frame update routines of
    [src/basics/terrain.js], [src/basics/collision.js] and
    [src/basics/proximity.js], and the properties of the locomotion
    subsystem proved about them.

    JavaScript numbers are IEEE-754 doubles.  The scene code is written once
    over an interface [Number] of the arithmetic it uses, and read at two
    instances: [js], the binary64 floats the scripts run on (everything
    evaluates there), and [ideal], the real numbers, in which the algebraic
    statements about interpolation and normalisation are read. *)

From Stdlib Require Import ZArith List Bool String Lia.
From Stdlib Require Import Floats.
From Stdlib Require Import Reals Lra.
Import ListNotations.

Set Implicit Arguments.
Set Warnings "-inexact-float".

(** ** The arithmetic of the scripts *)

Declare Scope js_scope.
Delimit Scope js_scope with js.

(** [dec m e] is the decimal literal [m * 10^-e]; [a > b] is written
    [ltb b a] and [a >= b] is [leb b a], as IEEE comparison has it.
    [truthy] is JavaScript's conversion of a number to a boolean. *)
Class Number := {
  num : Type;
  dec : Z -> nat -> num;
  add : num -> num -> num;
  sub : num -> num -> num;
  mul : num -> num -> num;
  div : num -> num -> num;
  sqrt : num -> num;
  abs : num -> num;
  ltb : num -> num -> bool;
  leb : num -> num -> bool;
  truthy : num -> bool;
  leb_ltb : forall a b, leb a b = true -> ltb b a = false;
  ltb_irrefl : forall a, ltb a a = false
}.

Infix "+" := add : js_scope.
Infix "-" := sub : js_scope.
Infix "*" := mul : js_scope.
Infix "/" := div : js_scope.
Infix "<?" := ltb : js_scope.
Infix "<=?" := leb : js_scope.
Notation "a >? b" := (ltb b a) (at level 70, only parsing) : js_scope.
Notation "a >=? b" := (leb b a) (at level 70, only parsing) : js_scope.

(** *** Binary64 floats *)

Module Float64.

Definition of_Z (m : Z) : float :=
  if (m <? 0)%Z
  then PrimFloat.opp (PrimFloat.of_uint63 (Uint63.of_Z (- m)))
  else PrimFloat.of_uint63 (Uint63.of_Z m).

(** Both operands are exact, so the one division rounds as the literal does. *)
Definition dec (m : Z) (e : nat) : float :=
  PrimFloat.div (of_Z m) (of_Z (10 ^ Z.of_nat e)).

(** ToBoolean: false for 0, -0 and NaN. *)
Definition truthy (x : float) : bool :=
  negb (PrimFloat.eqb x 0%float) && PrimFloat.eqb x x.

Lemma SFcompare_Lt_swap (x y : spec_float) :
  SFcompare x y = Some Lt -> SFcompare y x = Some Gt.
Proof.
  destruct x as [[|]|[|]| |[|] m1 e1], y as [[|]|[|]| |[|] m2 e2];
    simpl; try congruence;
    change (Pos.compare_cont Eq m1 m2) with (Pos.compare m1 m2);
    change (Pos.compare_cont Eq m2 m1) with (Pos.compare m2 m1);
    rewrite (Z.compare_antisym e1 e2), (Pos.compare_antisym m1 m2);
    destruct (e1 ?= e2)%Z; simpl; try congruence;
    destruct (m1 ?= m2)%positive; simpl; congruence.
Qed.

Lemma SFcompare_refl_not_Lt (x : spec_float) : SFcompare x x <> Some Lt.
Proof.
  destruct x as [[|]|[|]| |[|] m e]; simpl; try congruence;
    change (Pos.compare_cont Eq m m) with (Pos.compare m m);
    rewrite Z.compare_refl, Pos.compare_refl; simpl; congruence.
Qed.

Lemma float_leb_ltb (a b : float) :
  PrimFloat.leb a b = true -> PrimFloat.ltb b a = false.
Proof.
  rewrite leb_spec, ltb_spec. unfold SFleb, SFltb.
  destruct (SFcompare (Prim2SF b) (Prim2SF a)) as [[| |]|] eqn:E;
    try reflexivity.
  apply SFcompare_Lt_swap in E. rewrite E. discriminate.
Qed.

Lemma float_ltb_irrefl (a : float) : PrimFloat.ltb a a = false.
Proof.
  rewrite ltb_spec. unfold SFltb.
  pose proof (SFcompare_refl_not_Lt (Prim2SF a)) as H.
  destruct (SFcompare (Prim2SF a) (Prim2SF a)) as [[| |]|]; congruence.
Qed.

End Float64.

Definition js : Number := {|
  num := float;
  dec := Float64.dec;
  add := PrimFloat.add;
  sub := PrimFloat.sub;
  mul := PrimFloat.mul;
  div := PrimFloat.div;
  sqrt := PrimFloat.sqrt;
  abs := PrimFloat.abs;
  ltb := PrimFloat.ltb;
  leb := PrimFloat.leb;
  truthy := Float64.truthy;
  leb_ltb := Float64.float_leb_ltb;
  ltb_irrefl := Float64.float_ltb_irrefl
|}.

(** *** Real numbers *)

Module Real.

Definition dec (m : Z) (e : nat) : R := (IZR m / IZR (10 ^ Z.of_nat e))%R.
Definition ltb (a b : R) : bool := if Rlt_dec a b then true else false.
Definition leb (a b : R) : bool := if Rle_dec a b then true else false.
Definition truthy (x : R) : bool := if Req_dec_T x 0 then false else true.

Lemma ltb_true (a b : R) : ltb a b = true <-> (a < b)%R.
Proof. unfold ltb. destruct (Rlt_dec a b); intuition congruence. Qed.

Lemma leb_true (a b : R) : leb a b = true <-> (a <= b)%R.
Proof. unfold leb. destruct (Rle_dec a b); intuition congruence. Qed.

Lemma ltb_false (a b : R) : ltb a b = false <-> (b <= a)%R.
Proof.
  unfold ltb. destruct (Rlt_dec a b); split; intros; try lra; congruence.
Qed.

Lemma real_leb_ltb (a b : R) : leb a b = true -> ltb b a = false.
Proof. rewrite leb_true, ltb_false. trivial. Qed.

Lemma real_ltb_irrefl (a : R) : ltb a a = false.
Proof. apply ltb_false. lra. Qed.

End Real.

Definition ideal : Number := {|
  num := R;
  dec := Real.dec;
  add := Rplus;
  sub := Rminus;
  mul := Rmult;
  div := Rdiv;
  sqrt := R_sqrt.sqrt;
  abs := Rabs;
  ltb := Real.ltb;
  leb := Real.leb;
  truthy := Real.truthy;
  leb_ltb := Real.real_leb_ltb;
  ltb_irrefl := Real.real_ltb_irrefl
|}.

(** ** The part of three.js the scripts call

    three.js is not part of the repository; the functions below follow its
    source, operation by operation, so that they round as it does. *)

Module THREE.
Section WithNumber.
Context {N : Number}.
Local Open Scope js_scope.

Record Vector3 := { x : num; y : num; z : num }.

Record Quaternion := { qx : num; qy : num; qz : num; qw : num }.

(** [v.addScaledVector(d, s)]: [v.x += d.x * s], and so on. *)
Definition addScaledVector (v d : Vector3) (s : num) : Vector3 :=
  {| x := x v + x d * s; y := y v + y d * s; z := z v + z d * s |}.

(** [v.applyQuaternion(q)], for a unit quaternion [q]:
    [t = 2 * cross(q.xyz, v)], then [v + q.w * t + cross(q.xyz, t)]. *)
Definition applyQuaternion (v : Vector3) (q : Quaternion) : Vector3 :=
  let two := dec 2 0 in
  let tx := two * (qy q * z v - qz q * y v) in
  let ty := two * (qz q * x v - qx q * z v) in
  let tz := two * (qx q * y v - qy q * x v) in
  {| x := x v + qw q * tx + qy q * tz - qz q * ty;
     y := y v + qw q * ty + qz q * tx - qx q * tz;
     z := z v + qw q * tz + qx q * ty - qy q * tx |}.

Definition lengthSq (v : Vector3) : num := x v * x v + y v * y v + z v * z v.

(** [v.length()]. *)
Definition length (v : Vector3) : num := sqrt (lengthSq v).

Definition multiplyScalar (v : Vector3) (s : num) : Vector3 :=
  {| x := x v * s; y := y v * s; z := z v * s |}.

Definition divideScalar (v : Vector3) (s : num) : Vector3 :=
  multiplyScalar v (dec 1 0 / s).

(** [v.normalize()], that is [v.divideScalar(v.length() || 1)]. *)
Definition normalize (v : Vector3) : Vector3 :=
  divideScalar v (if truthy (length v) then length v else dec 1 0).

(** [a.distanceTo(b)]. *)
Definition distanceTo (a b : Vector3) : num :=
  let dx := x a - x b in
  let dy := y a - y b in
  let dz := z a - z b in
  sqrt (dx * dx + dy * dy + dz * dz).

(** [new THREE.Raycaster(origin, direction, near, far)]. *)
Record Raycaster := {
  origin : Vector3;
  direction : Vector3;
  near : num;
  far : num
}.

(** An entry of the array [intersectObjects] returns, nearest first. *)
Record Intersection := { distance : num; point : Vector3 }.

End WithNumber.

Module MathUtils.
Section WithNumber.
Context {N : Number}.
Local Open Scope js_scope.

(** [MathUtils.lerp(x, y, t)], that is [(1 - t) * x + t * y]. *)
Definition lerp (x y t : num) : num := (dec 1 0 - t) * x + t * y.

End WithNumber.
End MathUtils.

End THREE.

(** ** What a frame reads from the WebXR session *)

Module XR.
Section WithNumber.
Context {N : Number}.

(** [inputSource.gamepad]: the stick axes. *)
Record Gamepad := { axes : list num }.

Record InputSource := {
  handedness : string;
  gamepad : option Gamepad
}.

(** [renderer.xr.getSession()]. *)
Record Session := { inputSources : option (list InputSource) }.

(** The ambient state one call of [animate] reads. *)
Record Frame := {
  isPresenting : bool;
  getSession : option Session;
  camera_quaternion : THREE.Quaternion
}.

End WithNumber.
End XR.

(** ** The input sampling the three scripts share *)

Module Controls.
Import THREE XR.
Section WithNumber.
Context {N : Number}.
Local Open Scope js_scope.

(** The stick axes behind the deadzone, turned by the camera and flattened:
    terrain.js, lines 139-152, and the same lines of collision.js (122-134)
    and proximity.js (115-128).  [None] when the stick is at rest or the
    gamepad has fewer than four axes. *)
Definition sample (camera_quaternion : Quaternion) (gamepad : Gamepad)
  : option Vector3 :=
  if (4 <=? List.length (axes gamepad))%nat then
    let thumbstickX := nth 2 (axes gamepad) (dec 0 0) in
    let thumbstickY := nth 3 (axes gamepad) (dec 0 0) in
    let deadzone := dec 15 2 in
    if (abs thumbstickX >? deadzone) || (abs thumbstickY >? deadzone) then
      let moveDir :=
        applyQuaternion
          {| x := thumbstickX; y := dec 0 0; z := thumbstickY |}
          camera_quaternion in
      let moveDir := {| x := x moveDir; y := dec 0 0; z := z moveDir |} in
      Some (normalize moveDir)
    else None
  else None.

End WithNumber.
End Controls.

(** ** terrain.js *)

Module Terrain.
Import THREE THREE.MathUtils XR Controls.

Section Scene.
Context {N : Number}.
Local Open Scope js_scope.

(** [ray.intersectObjects(objects, recursive)] of the rendering library, and
    the array [terrainMeshes] that [init] fills and nothing changes later. *)
Variable Object3D : Type.
Variable intersectObjects :
  Raycaster -> list Object3D -> bool -> list Intersection.
Variable terrainMeshes : list Object3D.

(** The top-level variables a frame changes: [cameraRig.position] and
    [currentY]. *)
Record State := {
  cameraRig_position : Vector3;
  currentY : num
}.

(** [let currentY = 1.6] and [cameraRig.position.set(0, 1.6, 3)]. *)
Definition init : State :=
  {| cameraRig_position := {| x := dec 0 0; y := dec 16 1; z := dec 3 0 |};
     currentY := dec 16 1 |}.

Definition interpolationFactor : num := dec 2 1.

(** terrain.js, lines 83-109.  Returns whether terrain was found. *)
Definition terrainFollowing (checkPosition : Vector3) (st : State)
  : bool * State :=
  let ray :=
    {| origin := {| x := x checkPosition;
                    y := y checkPosition + dec 5 0;
                    z := z checkPosition |};
       direction := {| x := dec 0 0; y := dec (-1) 0; z := dec 0 0 |};
       near := dec 0 0;
       far := dec 20 0 |} in
  let hits := intersectObjects ray terrainMeshes true in
  match hits with
  | hit :: _ =>
      let terrainY := y (point hit) in
      let currentY' :=
        lerp (currentY st) (terrainY + dec 16 1) interpolationFactor in
      (true,
       {| cameraRig_position :=
            {| x := x (cameraRig_position st);
               y := currentY';
               z := z (cameraRig_position st) |};
          currentY := currentY' |})
  | [] => (false, st)
  end.

(** terrain.js, lines 112-129.  Returns the desired height, or [None] for
    [null]. *)
Definition checkTerrainAtNextPosition (nextPos : Vector3) (st : State)
  : option num * State :=
  let groundRay :=
    {| origin := {| x := x nextPos; y := y nextPos + dec 5 0; z := z nextPos |};
       direction := {| x := dec 0 0; y := dec (-1) 0; z := dec 0 0 |};
       near := dec 0 0;
       far := dec 20 0 |} in
  let groundHits := intersectObjects groundRay terrainMeshes true in
  match groundHits with
  | hit :: _ =>
      let terrainY := y (point hit) in
      (Some (terrainY + dec 16 1),
       {| cameraRig_position := cameraRig_position st;
          currentY :=
            lerp (currentY st) (terrainY + dec 16 1) interpolationFactor |})
  | [] => (None, st)
  end.

(** terrain.js, lines 145 and 154-170: the move along [moveDir]. *)
Definition move (moveDir : Vector3) (st : State) : State :=
  let moveSpeed := dec 5 2 in
  let currentPos := cameraRig_position st in
  let nextPos := addScaledVector currentPos moveDir moveSpeed in
  let (terrainHeight, st) := checkTerrainAtNextPosition nextPos st in
  match terrainHeight with
  | Some _ =>
      {| cameraRig_position :=
           {| x := x nextPos; y := currentY st; z := z nextPos |};
         currentY := currentY st |}
  | None =>
      {| cameraRig_position :=
           addScaledVector (cameraRig_position st) moveDir moveSpeed;
         currentY := currentY st |}
  end.

(** terrain.js, lines 136-174: the callback of [inputSources.forEach]. *)
Definition onInputSource (camera_quaternion : Quaternion) (st : State)
  (inputSource : InputSource) : State :=
  if (handedness inputSource =? "left")%string then
    match gamepad inputSource with
    | Some gamepad =>
        match sample camera_quaternion gamepad with
        | Some moveDir => move moveDir st
        | None => st
        end
    | None => st
    end
  else st.

(** terrain.js, lines 133-176: the movement of one frame. *)
Definition movement (frame : Frame) (st : State) : State :=
  if isPresenting frame then
    match getSession frame with
    | Some session =>
        match inputSources session with
        | Some sources =>
            fold_left (onInputSource (camera_quaternion frame)) sources st
        | None => st
        end
    | None => st
    end
  else st.

(** terrain.js, lines 131-182, without the rendering. *)
Definition animate (frame : Frame) (st : State) : State :=
  let st := movement frame st in
  snd (terrainFollowing (cameraRig_position st) st).

(** The frames of a session, one call of [animate] each. *)
Definition run (frames : list Frame) (st : State) : State :=
  fold_left (fun st frame => animate frame st) frames st.

(** *** What the properties of terrain.js are stated with *)

(** The downward probe under [p]: from 5 above [p], straight down, between
    0 and 20 away, against the walkable meshes, nearest hit first. *)
Definition probe (p : Vector3) : list Intersection :=
  intersectObjects
    {| origin := {| x := x p; y := y p + dec 5 0; z := z p |};
       direction := {| x := dec 0 0; y := dec (-1) 0; z := dec 0 0 |};
       near := dec 0 0;
       far := dec 20 0 |}
    terrainMeshes true.

(** The height the rig is smoothed to over ground of height [h]. *)
Definition smoothed (c h : num) : num := lerp c (h + dec 16 1) (dec 2 1).

(** [updates c c']: [c'] comes from [c] by smoothing updates alone, each
    toward the height of a hit of the downward probe plus the eye offset. *)
Inductive updates (c : num) : num -> Prop :=
| updates_none : updates c c
| updates_smooth c' p hit rest :
    updates c c' ->
    probe p = hit :: rest ->
    updates c (lerp c' (y (point hit) + dec 16 1) (dec 2 1)).

(** The move a source asks for, if any. *)
Definition intent (q : Quaternion) (src : InputSource) : option Vector3 :=
  if (handedness src =? "left")%string then
    match gamepad src with
    | Some g => sample q g
    | None => None
    end
  else None.

(** [n] smoothing updates over ground of height [h], with factor [t]
    (terrain.js has [t = interpolationFactor]). *)
Fixpoint smoothing (t h c : num) (n : nat) : num :=
  match n with
  | O => c
  | S n => lerp (smoothing t h c n) (h + dec 16 1) t
  end.

(** [n] ground snaps in a row, each at the rig's position: what [n] frames
    without movement do. *)
Definition snaps (n : nat) (st : State) : State :=
  Nat.iter n (fun st => snd (terrainFollowing (cameraRig_position st) st)) st.

End Scene.
End Terrain.

(** ** collision.js *)

Module Collision.
Import THREE XR Controls.

Section Scene.
Context {N : Number}.
Local Open Scope js_scope.

(** The array [collidables] that [createObstacles] fills. *)
Variable Object3D : Type.
Variable intersectObjects :
  Raycaster -> list Object3D -> bool -> list Intersection.
Variable collidables : list Object3D.

(** The script changes [cameraRig.position] and nothing else. *)
Record State := { cameraRig_position : Vector3 }.

(** [cameraRig.position.set(0, 1.6, 3)]. *)
Definition init : State :=
  {| cameraRig_position := {| x := dec 0 0; y := dec 16 1; z := dec 3 0 |} |}.

Definition moveSpeed : num := dec 5 2.
Definition collisionDistance : num := dec 10 1.

(** collision.js, lines 97-112. *)
Definition checkCollision (currentPos moveDirection : Vector3) : bool :=
  let nextPos := addScaledVector currentPos moveDirection moveSpeed in
  let raycaster :=
    {| origin := {| x := x nextPos; y := y nextPos + dec 5 1; z := z nextPos |};
       direction := moveDirection;
       near := dec 0 0;
       far := collisionDistance |} in
  let hits := intersectObjects raycaster collidables true in
  (0 <? List.length hits)%nat.

(** collision.js, lines 136-142. *)
Definition move (moveDir : Vector3) (st : State) : State :=
  if negb (checkCollision (cameraRig_position st) moveDir) then
    {| cameraRig_position :=
         addScaledVector (cameraRig_position st) moveDir moveSpeed |}
  else st.

(** collision.js, lines 119-146: the callback of [inputSources.forEach]. *)
Definition onInputSource (camera_quaternion : Quaternion) (st : State)
  (inputSource : InputSource) : State :=
  if (handedness inputSource =? "left")%string then
    match gamepad inputSource with
    | Some gamepad =>
        match sample camera_quaternion gamepad with
        | Some moveDir => move moveDir st
        | None => st
        end
    | None => st
    end
  else st.

(** collision.js, lines 114-151, without the rendering. *)
Definition animate (frame : Frame) (st : State) : State :=
  if isPresenting frame then
    match getSession frame with
    | Some session =>
        match inputSources session with
        | Some sources =>
            fold_left (onInputSource (camera_quaternion frame)) sources st
        | None => st
        end
    | None => st
    end
  else st.

(** The forward probe of collision.js for the candidate position [nextPos]:
    from 0.5 above [nextPos], along the move, between 0 and 1.0 away,
    against the obstacles. *)
Definition forwardProbe (nextPos moveDir : Vector3) : list Intersection :=
  intersectObjects
    {| origin := {| x := x nextPos; y := y nextPos + dec 5 1; z := z nextPos |};
       direction := moveDir;
       near := dec 0 0;
       far := dec 10 1 |}
    collidables true.

End Scene.
End Collision.

(** ** proximity.js *)

Module Proximity.
Import THREE XR Controls.

Section Scene.
Context {N : Number}.
Local Open Scope js_scope.

(** [Math.sin]; the clock [Date.now()] is an argument of the frame. *)
Variable Math_sin : num -> num.

(** What [checkProximity] writes besides the state: the colour of the cube's
    material and a line on the console ([near] tells which of the two). *)
Inductive Effect :=
| SetHex (hex : Z)
| ConsoleLog (near : bool) (distance : num).

(** [cameraRig.position], [isNearCube], and the cube: its position, the
    colour of its material and its uniform scale. *)
Record State := {
  cameraRig_position : Vector3;
  isNearCube : bool;
  proximityCube_position : Vector3;
  proximityCube_color : Z;
  proximityCube_scale : num
}.

(** [init]: rig at (0, 1.6, 3), green cube at (0, 0.5, -5). *)
Definition init : State :=
  {| cameraRig_position := {| x := dec 0 0; y := dec 16 1; z := dec 3 0 |};
     isNearCube := false;
     proximityCube_position :=
       {| x := dec 0 0; y := dec 5 1; z := dec (-5) 0 |};
     proximityCube_color := 0x00ff00;
     proximityCube_scale := dec 1 0 |}.

Definition proximityDistance : num := dec 40 1.

(** proximity.js, lines 75-105.  Rig and cube are children of the scene,
    which is never moved: their world positions are their positions. *)
Definition checkProximity (now : num) (st : State) : list Effect * State :=
  let playerPosition := cameraRig_position st in
  let cubePosition := proximityCube_position st in
  let distance := distanceTo playerPosition cubePosition in
  let '(effects, st) :=
    if (distance <? proximityDistance) && negb (isNearCube st) then
      ([SetHex 0xff0000; ConsoleLog true distance],
       {| cameraRig_position := cameraRig_position st;
          isNearCube := true;
          proximityCube_position := proximityCube_position st;
          proximityCube_color := 0xff0000;
          proximityCube_scale := proximityCube_scale st |})
    else if (distance >=? proximityDistance) && isNearCube st then
      ([SetHex 0x00ff00; ConsoleLog false distance],
       {| cameraRig_position := cameraRig_position st;
          isNearCube := false;
          proximityCube_position := proximityCube_position st;
          proximityCube_color := 0x00ff00;
          proximityCube_scale := proximityCube_scale st |})
    else ([], st) in
  let scale :=
    if isNearCube st
    then dec 1 0 + Math_sin (now * dec 5 3) * dec 2 1
    else dec 1 0 in
  (effects,
   {| cameraRig_position := cameraRig_position st;
      isNearCube := isNearCube st;
      proximityCube_position := proximityCube_position st;
      proximityCube_color := proximityCube_color st;
      proximityCube_scale := scale |}).

(** proximity.js, lines 112-135: the callback of [inputSources.forEach]. *)
Definition onInputSource (camera_quaternion : Quaternion) (st : State)
  (inputSource : InputSource) : State :=
  if (handedness inputSource =? "left")%string then
    match gamepad inputSource with
    | Some gamepad =>
        match sample camera_quaternion gamepad with
        | Some moveDir =>
            let moveSpeed := dec 5 2 in
            {| cameraRig_position :=
                 addScaledVector (cameraRig_position st) moveDir moveSpeed;
               isNearCube := isNearCube st;
               proximityCube_position := proximityCube_position st;
               proximityCube_color := proximityCube_color st;
               proximityCube_scale := proximityCube_scale st |}
        | None => st
        end
    | None => st
    end
  else st.

(** proximity.js, lines 107-143, without the rendering. *)
Definition animate (now : num) (frame : Frame) (st : State)
  : list Effect * State :=
  let st :=
    if isPresenting frame then
      match getSession frame with
      | Some session =>
          match inputSources session with
          | Some sources =>
              fold_left (onInputSource (camera_quaternion frame)) sources st
          | None => st
          end
      | None => st
      end
    else st in
  checkProximity now st.

End Scene.
End Proximity.

(** ** A ray caster for the boxes of the demo scenes

    The meshes the scripts register are axis-aligned: the floor plane and
    boxes that are moved but never turned.  For such a mesh a ray that starts
    outside meets a front face where it enters the bounding box; a ray that
    starts inside meets none.  The caster below computes that entry point on
    binary64 floats, and returns the hits nearest first as
    [Raycaster.intersectObjects] does.

    This is the geometry of the scenes, not the code of three.js, which
    intersects the triangles of geometries stored in 32-bit floats: its hit
    points can differ from these in their last digits.  The properties of
    the scripts are proved for any caster; this one gives them scenes to be
    evaluated on. *)

Module Boxes.
Import THREE.
Section OnFloats.
#[local] Existing Instance js.
Local Open Scope float_scope.

(** The world bounding box of a mesh. *)
Record Box := { lo : Vector3; hi : Vector3 }.

(** A box geometry of the given size, centred at [c]. *)
Definition box (w h d : float) (c : Vector3) : Box :=
  {| lo := {| x := x c - w / 2; y := y c - h / 2; z := z c - d / 2 |};
     hi := {| x := x c + w / 2; y := y c + h / 2; z := z c + d / 2 |} |}.

Definition fmin (a b : float) : float := if a <? b then a else b.
Definition fmax (a b : float) : float := if a <? b then b else a.

(** The parameters at which the ray is between the two planes of one axis;
    [None] when it runs beside them. *)
Definition slab (o d l h : float) : option (float * float) :=
  if d =? 0 then
    if (l <=? o) && (o <=? h) then Some (neg_infinity, infinity) else None
  else
    let t1 := (l - o) / d in
    let t2 := (h - o) / d in
    Some (fmin t1 t2, fmax t1 t2).

Definition intersectBox (ray : Raycaster) (b : Box) : list Intersection :=
  let o := origin ray in
  let d := direction ray in
  match slab (x o) (x d) (x (lo b)) (x (hi b)),
        slab (y o) (y d) (y (lo b)) (y (hi b)),
        slab (z o) (z d) (z (lo b)) (z (hi b)) with
  | Some (ax, bx), Some (ay, by'), Some (az, bz) =>
      let tin := fmax ax (fmax ay az) in
      let tout := fmin bx (fmin by' bz) in
      if (tin <=? tout) && (near ray <=? tin) && (tin <=? far ray) then
        [{| distance := tin;
            point := {| x := x o + x d * tin;
                        y := y o + y d * tin;
                        z := z o + z d * tin |} |}]
      else []
  | _, _, _ => []
  end.

Fixpoint insert (h : Intersection) (l : list Intersection)
  : list Intersection :=
  match l with
  | [] => [h]
  | h' :: l' =>
      if distance h <=? distance h' then h :: l else h' :: insert h l'
  end.

Definition intersectObjects (ray : Raycaster) (objects : list Box)
  (recursive : bool) : list Intersection :=
  fold_right insert [] (flat_map (intersectBox ray) objects).

(** The walkable meshes of terrain.js: the floor plane (30 by 30, at height
    0) and eight steps of 4 by 0.2 by 1.5. *)
Definition step (i : Z) : Box :=
  let i := Float64.of_Z i in
  box 4 0.2 1.5 {| x := 0; y := i * 0.2 + 0.1; z := -5 - i * 1.5 |}.

Definition terrainMeshes : list Box :=
  box 30 0 30 {| x := 0; y := 0; z := 0 |}
  :: map step [0; 1; 2; 3; 4; 5; 6; 7]%Z.

(** The obstacles of collision.js: three boxes of 1 by 2 by 1. *)
Definition collidables : list Box :=
  [ box 1 2 1 {| x := 2; y := 1; z := -1 |};
    box 1 2 1 {| x := -2; y := 1; z := 1 |};
    box 1 2 1 {| x := 0; y := 1; z := -5 |} ].

(** The point [p] is within the box [b]. *)
Definition inside (p : Vector3) (b : Box) : bool :=
  (x (lo b) <=? x p) && (x p <=? x (hi b)) &&
  (y (lo b) <=? y p) && (y p <=? y (hi b)) &&
  (z (lo b) <=? z p) && (z p <=? z (hi b)).

(** A left-hand controller with its stick at [(sx, sy)]. *)
Definition leftStick (sx sy : float) : XR.InputSource :=
  {| XR.handedness := "left";
     XR.gamepad := Some {| XR.axes := [0; 0; sx; sy] |} |}.

(** A frame of a running session with the given sources; the viewer looks
    along -Z when [q] is the identity [(0, 0, 0, 1)]. *)
Definition frame (q : Quaternion) (sources : list XR.InputSource) : XR.Frame :=
  {| XR.isPresenting := true;
     XR.getSession := Some {| XR.inputSources := Some sources |};
     XR.camera_quaternion := q |}.

Definition identity : Quaternion := {| qx := 0; qy := 0; qz := 0; qw := 1 |}.

(** Level ground without end at height [h]: what a downward ray meets
    wherever it is cast. *)
Definition levelGround (h : float) (ray : Raycaster) (objects : list unit)
  (recursive : bool) : list Intersection :=
  [{| distance := y (origin ray) - h;
      point := {| x := x (origin ray); y := h; z := z (origin ray) |} |}].

(** A frame outside a session. *)
Definition idle : XR.Frame :=
  {| XR.isPresenting := false;
     XR.getSession := None;
     XR.camera_quaternion := identity |}.

(** States and probe results of the scenes above. *)

Definition rigAt (px py pz c : float) : Terrain.State :=
  {| Terrain.cameraRig_position := {| x := px; y := py; z := pz |};
     Terrain.currentY := c |}.

Definition forward : Vector3 := {| x := 0; y := 0; z := -1 |}.
Definition backward : Vector3 := {| x := 0; y := 0; z := 1 |}.

(** What the downward probe meets at the front edge of the first step: the
    step, then the floor under it. *)
Definition onStep : Intersection :=
  {| distance := 6.3999999999999995;
     point := {| x := 0; y := 0.20000000000000018; z := -4.25 |} |}.
Definition underStep : Intersection :=
  {| distance := 6.5999999999999996;
     point := {| x := 0; y := 0; z := -4.25 |} |}.

(** The same two surfaces, met from the height the move has smoothed to. *)
Definition onStepAgain : Intersection :=
  {| distance := 6.4400000000000004;
     point := {| x := 0; y := 0.20000000000000018; z := -4.25 |} |}.
Definition underStepAgain : Intersection :=
  {| distance := 6.6400000000000006;
     point := {| x := 0; y := 0; z := -4.25 |} |}.

End OnFloats.
End Boxes.

(** ** movement.js *)

Module Movement.
Import THREE XR Controls.

Section Scene.
Context {N : Number}.
Local Open Scope js_scope.

(** The script changes [cameraRig.position] and nothing else. *)
Record State := { cameraRig_position : Vector3 }.

(** [cameraRig.position.set(0, 1.6, 3)]. *)
Definition init : State :=
  {| cameraRig_position := {| x := dec 0 0; y := dec 16 1; z := dec 3 0 |} |}.

(** movement.js, lines 70-93: the callback of [inputSources.forEach]. *)
Definition onInputSource (camera_quaternion : Quaternion) (st : State)
  (inputSource : InputSource) : State :=
  if (handedness inputSource =? "left")%string then
    match gamepad inputSource with
    | Some gamepad =>
        match sample camera_quaternion gamepad with
        | Some moveDir =>
            let moveSpeed := dec 5 2 in
            {| cameraRig_position :=
                 addScaledVector (cameraRig_position st) moveDir moveSpeed |}
        | None => st
        end
    | None => st
    end
  else st.

(** movement.js, lines 65-98, without the rendering. *)
Definition animate (frame : Frame) (st : State) : State :=
  if isPresenting frame then
    match getSession frame with
    | Some session =>
        match inputSources session with
        | Some sources =>
            fold_left (onInputSource (camera_quaternion frame)) sources st
        | None => st
        end
    | None => st
    end
  else st.

(** The frames of a session, one call of [animate] each. *)
Definition run (frames : list Frame) (st : State) : State :=
  fold_left (fun st frame => animate frame st) frames st.

End Scene.
End Movement.

(** ** world.js: the city with the tsunami (lines 639-1075)

    The console output of the script is left out.  [Date.now()] is read
    once per frame.  What runs between frames, the loader callbacks and the
    end of the footstep sound, are events of their own. *)

Module City.
Import THREE THREE.MathUtils Controls.

Section Scene.
Context {N : Number}.
Local Open Scope js_scope.

(** [raycaster.intersectObject(object, recursive)], [Math.sin] and
    [Math.PI]. *)
Variable Object3D : Type.
Variable intersectObject :
  Raycaster -> Object3D -> bool -> list Intersection.
Variable Math_sin : num -> num.
Variable Math_PI : num.

Record GamepadButton := { pressed : bool }.

Record Gamepad := { buttons : list GamepadButton; axes : list num }.

Record InputSource := {
  handedness : string;
  gamepad : option Gamepad
}.

Record Session := { inputSources : option (list InputSource) }.

(** The ambient state one frame reads; [Date_now] in milliseconds. *)
Record Frame := {
  isPresenting : bool;
  getSession : option Session;
  camera_quaternion : Quaternion;
  Date_now : Z
}.

(** [tsunamiActive], [waterLevel], and of the water mesh its visibility,
    the height of its centre and the opacity of its material. *)
Record Tsunami := {
  tsunamiActive : bool;
  waterLevel : num;
  tsunamiWater_visible : bool;
  tsunamiWater_position_y : num;
  waterMaterial_opacity : num
}.

(** [footstepSound]: whether its buffer is loaded, and [isPlaying]. *)
Record Audio := { buffer : bool; isPlaying : bool }.

(** The calls the script makes on [footstepSound]. *)
Inductive AudioCall := Stop | Play.

Record State := {
  cameraRig_position : Vector3;
  currentPlayerHeight : num;
  cityModel : option Object3D;
  tsunami : Tsunami;
  triggerPressed : bool;
  isWalking : bool;
  lastFootstepTime : Z;
  footstepSound : Audio;
  accentLight1_intensity : num;
  accentLight2_intensity : num;
  accentLight3_intensity : num
}.

Definition playerEyeHeight : num := dec 16 1.
Definition footstepInterval : Z := 400.
Definition maxWaterLevel : num := dec 8 0.
Definition riseSpeed : num := dec 15 3.

(** The top-level statements of the script: the rig at (-0.39, 1, 1.2),
    [currentPlayerHeight = 1.6], the water at level -2 under the ground, its
    box (5 thick) centred 2.5 higher and hidden, the accent lights at 0.3. *)
Definition init : State :=
  {| cameraRig_position := {| x := dec (-39) 2; y := dec 1 0; z := dec 12 1 |};
     currentPlayerHeight := dec 16 1;
     cityModel := None;
     tsunami :=
       {| tsunamiActive := false;
          waterLevel := dec (-2) 0;
          tsunamiWater_visible := false;
          tsunamiWater_position_y := dec (-2) 0 + dec 25 1;
          waterMaterial_opacity := dec 7 1 |};
     triggerPressed := false;
     isWalking := false;
     lastFootstepTime := 0;
     footstepSound := {| buffer := false; isPlaying := false |};
     accentLight1_intensity := dec 3 1;
     accentLight2_intensity := dec 3 1;
     accentLight3_intensity := dec 3 1 |}.

Definition set_cameraRig_position (p : Vector3) (st : State) : State :=
  {| cameraRig_position := p;
     currentPlayerHeight := currentPlayerHeight st;
     cityModel := cityModel st;
     tsunami := tsunami st;
     triggerPressed := triggerPressed st;
     isWalking := isWalking st;
     lastFootstepTime := lastFootstepTime st;
     footstepSound := footstepSound st;
     accentLight1_intensity := accentLight1_intensity st;
     accentLight2_intensity := accentLight2_intensity st;
     accentLight3_intensity := accentLight3_intensity st |}.

Definition set_currentPlayerHeight (h : num) (st : State) : State :=
  {| cameraRig_position := cameraRig_position st;
     currentPlayerHeight := h;
     cityModel := cityModel st;
     tsunami := tsunami st;
     triggerPressed := triggerPressed st;
     isWalking := isWalking st;
     lastFootstepTime := lastFootstepTime st;
     footstepSound := footstepSound st;
     accentLight1_intensity := accentLight1_intensity st;
     accentLight2_intensity := accentLight2_intensity st;
     accentLight3_intensity := accentLight3_intensity st |}.

Definition set_cityModel (model : option Object3D) (st : State) : State :=
  {| cameraRig_position := cameraRig_position st;
     currentPlayerHeight := currentPlayerHeight st;
     cityModel := model;
     tsunami := tsunami st;
     triggerPressed := triggerPressed st;
     isWalking := isWalking st;
     lastFootstepTime := lastFootstepTime st;
     footstepSound := footstepSound st;
     accentLight1_intensity := accentLight1_intensity st;
     accentLight2_intensity := accentLight2_intensity st;
     accentLight3_intensity := accentLight3_intensity st |}.

Definition set_tsunami (t : Tsunami) (st : State) : State :=
  {| cameraRig_position := cameraRig_position st;
     currentPlayerHeight := currentPlayerHeight st;
     cityModel := cityModel st;
     tsunami := t;
     triggerPressed := triggerPressed st;
     isWalking := isWalking st;
     lastFootstepTime := lastFootstepTime st;
     footstepSound := footstepSound st;
     accentLight1_intensity := accentLight1_intensity st;
     accentLight2_intensity := accentLight2_intensity st;
     accentLight3_intensity := accentLight3_intensity st |}.

Definition set_triggerPressed (b : bool) (st : State) : State :=
  {| cameraRig_position := cameraRig_position st;
     currentPlayerHeight := currentPlayerHeight st;
     cityModel := cityModel st;
     tsunami := tsunami st;
     triggerPressed := b;
     isWalking := isWalking st;
     lastFootstepTime := lastFootstepTime st;
     footstepSound := footstepSound st;
     accentLight1_intensity := accentLight1_intensity st;
     accentLight2_intensity := accentLight2_intensity st;
     accentLight3_intensity := accentLight3_intensity st |}.

Definition set_isWalking (b : bool) (st : State) : State :=
  {| cameraRig_position := cameraRig_position st;
     currentPlayerHeight := currentPlayerHeight st;
     cityModel := cityModel st;
     tsunami := tsunami st;
     triggerPressed := triggerPressed st;
     isWalking := b;
     lastFootstepTime := lastFootstepTime st;
     footstepSound := footstepSound st;
     accentLight1_intensity := accentLight1_intensity st;
     accentLight2_intensity := accentLight2_intensity st;
     accentLight3_intensity := accentLight3_intensity st |}.

Definition set_lastFootstepTime (t : Z) (st : State) : State :=
  {| cameraRig_position := cameraRig_position st;
     currentPlayerHeight := currentPlayerHeight st;
     cityModel := cityModel st;
     tsunami := tsunami st;
     triggerPressed := triggerPressed st;
     isWalking := isWalking st;
     lastFootstepTime := t;
     footstepSound := footstepSound st;
     accentLight1_intensity := accentLight1_intensity st;
     accentLight2_intensity := accentLight2_intensity st;
     accentLight3_intensity := accentLight3_intensity st |}.

Definition set_footstepSound (a : Audio) (st : State) : State :=
  {| cameraRig_position := cameraRig_position st;
     currentPlayerHeight := currentPlayerHeight st;
     cityModel := cityModel st;
     tsunami := tsunami st;
     triggerPressed := triggerPressed st;
     isWalking := isWalking st;
     lastFootstepTime := lastFootstepTime st;
     footstepSound := a;
     accentLight1_intensity := accentLight1_intensity st;
     accentLight2_intensity := accentLight2_intensity st;
     accentLight3_intensity := accentLight3_intensity st |}.

Definition set_accentLights (i1 i2 i3 : num) (st : State) : State :=
  {| cameraRig_position := cameraRig_position st;
     currentPlayerHeight := currentPlayerHeight st;
     cityModel := cityModel st;
     tsunami := tsunami st;
     triggerPressed := triggerPressed st;
     isWalking := isWalking st;
     lastFootstepTime := lastFootstepTime st;
     footstepSound := footstepSound st;
     accentLight1_intensity := i1;
     accentLight2_intensity := i2;
     accentLight3_intensity := i3 |}.

(** [footstepSound.stop()] and [footstepSound.play()]: three.js clears and
    sets [isPlaying]. *)
Definition stop (st : State) : State :=
  set_footstepSound
    {| buffer := buffer (footstepSound st); isPlaying := false |} st.

Definition play (st : State) : State :=
  set_footstepSound
    {| buffer := buffer (footstepSound st); isPlaying := true |} st.

(** world.js, lines 776-782. *)
Definition startTsunami (st : State) : State :=
  if negb (tsunamiActive (tsunami st)) then
    set_tsunami
      {| tsunamiActive := true;
         waterLevel := waterLevel (tsunami st);
         tsunamiWater_visible := true;
         tsunamiWater_position_y := tsunamiWater_position_y (tsunami st);
         waterMaterial_opacity := waterMaterial_opacity (tsunami st) |}
      st
  else st.

(** world.js, lines 785-814. *)
Definition updateTsunami (frame : Frame) (st : State) : State :=
  if negb (isPresenting frame) then st
  else if negb (tsunamiActive (tsunami st)) then st
  else if waterLevel (tsunami st) <? maxWaterLevel then
    let waterLevel' := waterLevel (tsunami st) + riseSpeed in
    let time := dec (Date_now frame) 0 * dec 1 3 in
    set_tsunami
      {| tsunamiActive := tsunamiActive (tsunami st);
         waterLevel := waterLevel';
         tsunamiWater_visible := tsunamiWater_visible (tsunami st);
         tsunamiWater_position_y := waterLevel' + dec 25 1;
         waterMaterial_opacity :=
           dec 7 1 + Math_sin (time * dec 2 0) * dec 5 2 |}
      st
  else st.

(** world.js, lines 912-940.  The ray caster is the one made at line 909:
    its near bound stays 0. *)
Definition terrainFollowing (st : State) : State :=
  match cityModel st with
  | None => st
  | Some model =>
      let playerPos := cameraRig_position st in
      let rayOrigin :=
        {| x := x playerPos; y := y playerPos + dec 10 0; z := z playerPos |} in
      let rayDirection := {| x := dec 0 0; y := dec (-1) 0; z := dec 0 0 |} in
      let raycaster :=
        {| origin := rayOrigin;
           direction := rayDirection;
           near := dec 0 0;
           far := dec 20 0 |} in
      let intersects := intersectObject raycaster model true in
      match intersects with
      | hit :: _ =>
          let groundY := y (point hit) in
          let targetHeight := groundY + playerEyeHeight in
          let height :=
            lerp (currentPlayerHeight st) targetHeight (dec 15 2) in
          set_cameraRig_position
            {| x := x (cameraRig_position st);
               y := height;
               z := z (cameraRig_position st) |}
            (set_currentPlayerHeight height st)
      | [] => st
      end
  end.

(** world.js, lines 957-971: the trigger of a left-hand gamepad. *)
Definition onTrigger (gamepad : Gamepad) (st : State) : State :=
  if (0 <? List.length (buttons gamepad))%nat then
    let triggerButton := nth 0 (buttons gamepad) {| pressed := false |} in
    if pressed triggerButton && negb (triggerPressed st) then
      let st := set_triggerPressed true st in
      if negb (tsunamiActive (tsunami st)) then startTsunami st else st
    else if negb (pressed triggerButton) then set_triggerPressed false st
    else st
  else st.

(** world.js, lines 973-1003: the stick of a left-hand gamepad.  It carries
    [movingThisFrame] and the calls made on the sound so far. *)
Definition onStick (frame : Frame) (gamepad : Gamepad)
  (acc : bool * list AudioCall * State) : bool * list AudioCall * State :=
  let '(movingThisFrame, calls, st) := acc in
  match sample (camera_quaternion frame) {| XR.axes := axes gamepad |} with
  | Some moveDir =>
      let moveSpeed := dec 1 1 in
      let st :=
        set_cameraRig_position
          (addScaledVector (cameraRig_position st) moveDir moveSpeed)
          st in
      if buffer (footstepSound st) then
        let currentTime := Date_now frame in
        if (currentTime - lastFootstepTime st >? footstepInterval)%Z
        then
          let '(calls, st) :=
            if isPlaying (footstepSound st)
            then (calls ++ [Stop], stop st)
            else (calls, st) in
          (true, calls ++ [Play],
           set_lastFootstepTime currentTime (play st))
        else (true, calls, st)
      else (true, calls, st)
  | None => (movingThisFrame, calls, st)
  end.

(** world.js, lines 952-1005: the callback of [inputSources.forEach]. *)
Definition onInputSource (frame : Frame)
  (acc : bool * list AudioCall * State) (inputSource : InputSource)
  : bool * list AudioCall * State :=
  let '(movingThisFrame, calls, st) := acc in
  if (handedness inputSource =? "left")%string then
    match gamepad inputSource with
    | Some gamepad =>
        onStick frame gamepad (movingThisFrame, calls, onTrigger gamepad st)
    | None => acc
    end
  else acc.

(** world.js, lines 946-1014. *)
Definition handleMovement (frame : Frame) (st : State)
  : list AudioCall * State :=
  if isPresenting frame then
    match getSession frame with
    | Some session =>
        match inputSources session with
        | Some sources =>
            let '(movingThisFrame, calls, st) :=
              fold_left (onInputSource frame) sources (false, [], st) in
            let '(calls, st) :=
              if negb movingThisFrame && isPlaying (footstepSound st)
              then (calls ++ [Stop], stop st)
              else (calls, st) in
            (calls, set_isWalking movingThisFrame st)
        | None => ([], st)
        end
    | None => ([], st)
    end
  else ([], st).

(** world.js, lines 1020-1027. *)
Definition animateLights (frame : Frame) (st : State) : State :=
  let time := dec (Date_now frame) 0 * dec 1 3 in
  set_accentLights
    (dec 3 1 + Math_sin (time * dec 5 1) * dec 5 2)
    (dec 3 1 + Math_sin (time * dec 5 1 + Math_PI * dec 66 2) * dec 5 2)
    (dec 3 1 + Math_sin (time * dec 5 1 + Math_PI * dec 133 2) * dec 5 2)
    st.

(** world.js, lines 1031-1052: the callback of [setAnimationLoop], without
    the animation mixer and the rendering. *)
Definition animate (frame : Frame) (st : State) : list AudioCall * State :=
  let st := updateTsunami frame st in
  let '(calls, st) := handleMovement frame st in
  let st := terrainFollowing st in
  let st := animateLights frame st in
  (calls, st).

(** What the event loop runs: a frame, the loader's callback that sets
    [cityModel] (lines 825-828), the audio loader's callback that sets the
    buffer of the sound (lines 681-686), and the end of the sound, at which
    three.js clears [isPlaying]. *)
Inductive Event :=
| AnimationFrame (frame : Frame)
| CityLoaded (model : Object3D)
| SoundLoaded
| SoundEnded.

Definition step (event : Event) (st : State) : list AudioCall * State :=
  match event with
  | AnimationFrame frame => animate frame st
  | CityLoaded model => ([], set_cityModel (Some model) st)
  | SoundLoaded =>
      ([], set_footstepSound
             {| buffer := true; isPlaying := isPlaying (footstepSound st) |}
             st)
  | SoundEnded => ([], stop st)
  end.

(** A run of the event loop: the state it ends in and, for each event, the
    calls made on the sound. *)
Fixpoint run (events : list Event) (st : State)
  : list (Event * list AudioCall) * State :=
  match events with
  | [] => ([], st)
  | event :: events' =>
      let (calls, st') := step event st in
      let (trace, st'') := run events' st' in
      ((event, calls) :: trace, st'')
  end.

(** *** What the properties of the city are stated with *)

(** The tsunami as [startTsunami] leaves it. *)
Definition started (t : Tsunami) : Tsunami :=
  {| tsunamiActive := true;
     waterLevel := waterLevel t;
     tsunamiWater_visible := true;
     tsunamiWater_position_y := tsunamiWater_position_y t;
     waterMaterial_opacity := waterMaterial_opacity t |}.

(** A left-hand source with its trigger, button 0, pressed. *)
Definition pulls (src : InputSource) : bool :=
  (handedness src =? "left")%string &&
  match gamepad src with
  | Some g =>
      (0 <? List.length (buttons g))%nat &&
      pressed (nth 0 (buttons g) {| pressed := false |})
  | None => false
  end.

(** A source of the frame's presenting session pulls the trigger. *)
Definition triggerPulled (frame : Frame) : bool :=
  isPresenting frame &&
  match getSession frame with
  | Some session =>
      match inputSources session with
      | Some sources => existsb pulls sources
      | None => false
      end
  | None => false
  end.

(** The trigger is pulled in one of the frames among the events. *)
Definition everPulled (events : list Event) : bool :=
  existsb
    (fun event =>
       match event with
       | AnimationFrame frame => triggerPulled frame
       | _ => false
       end)
    events.

(** The times at which the calls of one frame start the sound. *)
Definition starts (frame : Frame) (calls : list AudioCall) : list Z :=
  flat_map
    (fun call => match call with Play => [Date_now frame] | Stop => [] end)
    calls.

(** The number of frames among the events in which a session presents. *)
Fixpoint presentingFrames (events : list Event) : nat :=
  match events with
  | AnimationFrame frame :: events' =>
      (if isPresenting frame then 1 else 0) + presentingFrames events'
  | _ :: events' => presentingFrames events'
  | [] => O
  end.

(** The readings of the clock at which [play] was called, in order. *)
Definition playTimes (trace : list (Event * list AudioCall)) : list Z :=
  flat_map
    (fun entry : Event * list AudioCall =>
       match fst entry with
       | AnimationFrame frame => starts frame (snd entry)
       | _ => []
       end)
    trace.

(** Each time is more than [footstepInterval] after the one before it, the
    first after [last]. *)
Fixpoint spaced (last : Z) (times : list Z) : Prop :=
  match times with
  | [] => True
  | t :: times' => (t - last > footstepInterval)%Z /\ spaced t times'
  end.

(** The trigger flag is clear whenever the tsunami has not started. *)
Definition armed (st : State) : Prop :=
  tsunamiActive (tsunami st) = true \/ triggerPressed st = false.

(** The mesh of the water shows when the tsunami is active, half its
    thickness above the water level. *)
Definition meshFollows (t : Tsunami) : Prop :=
  tsunamiWater_visible t = tsunamiActive t /\
  tsunamiWater_position_y t = waterLevel t + dec 25 1.

(** What one frame does to the sound: it starts it at most once, at the
    reading [now] of the clock and more than [footstepInterval] after
    [last], and remembers that reading. *)
Definition paced (last now : Z) (times : list Z) (last' : Z) : Prop :=
  (times = [] /\ last' = last) \/
  (times = [now] /\ (now - last > footstepInterval)%Z /\ last' = now).

(** A sound that plays has its buffer. *)
Definition loaded (st : State) : Prop :=
  isPlaying (footstepSound st) = true -> buffer (footstepSound st) = true.

(** A sound that plays has its buffer, and the player is walking. *)
Definition audible (st : State) : Prop :=
  isPlaying (footstepSound st) = true ->
  isWalking st = true /\ buffer (footstepSound st) = true.

End Scene.
End City.

(** ** A street for the city

    Level ground, a left-hand controller and frames of a session, to run
    the script of the city on. *)

Module Streets.
Import THREE City.

Section Scene.
Context {N : Number}.
Local Open Scope js_scope.

(** Level ground without end at height [h]: what a downward ray meets
    wherever it is cast. *)
Definition street (h : num) (ray : Raycaster) (model : unit)
  (recursive : bool) : list Intersection :=
  [{| distance := y (origin ray) - h;
      point := {| x := x (origin ray); y := h; z := z (origin ray) |} |}].

(** The same ground under a caster that is given a list of meshes, as
    that of terrain.js is. *)
Definition ground (h : num) (ray : Raycaster) (objects : list unit)
  (recursive : bool) : list Intersection :=
  street h ray tt recursive.

(** A left-hand controller with its trigger and its stick at [(sx, sy)]. *)
Definition leftHand (trigger : bool) (sx sy : num) : InputSource :=
  {| handedness := "left";
     gamepad :=
       Some {| buttons := [{| pressed := trigger |}];
               axes := [dec 0 0; dec 0 0; sx; sy] |} |}.

(** A frame of a running session at the time [now], the viewer looking
    along -Z. *)
Definition frame (now : Z) (sources : list InputSource) : Frame :=
  {| isPresenting := true;
     getSession := Some {| inputSources := Some sources |};
     camera_quaternion :=
       {| qx := dec 0 0; qy := dec 0 0; qz := dec 0 0; qw := dec 1 0 |};
     Date_now := now |}.

End Scene.
End Streets.

(** ** Sessions of collision.js and proximity.js *)

Module Runs.
Import THREE XR.

Section Scene.
Context {N : Number}.

Variable Object3D : Type.
Variable intersectObjects :
  Raycaster -> list Object3D -> bool -> list Intersection.
Variable collidables : list Object3D.

(** The frames of a session of collision.js, one call of [animate] each. *)
Definition collision (frames : list Frame) (st : Collision.State)
  : Collision.State :=
  fold_left
    (fun st frame => Collision.animate intersectObjects collidables frame st)
    frames st.

Variable Math_sin : num -> num.

(** The frames of a session of proximity.js, each with the reading of
    [Date.now()] its call of [animate] makes; the effects of the frames are
    collected in order. *)
Fixpoint proximity (frames : list (num * Frame)) (st : Proximity.State)
  : list Proximity.Effect * Proximity.State :=
  match frames with
  | [] => ([], st)
  | (now, frame) :: frames' =>
      let (effects, st') := Proximity.animate Math_sin now frame st in
      let (effects', st'') := proximity frames' st' in
      (effects ++ effects', st'')
  end.

End Scene.

Section Sources.
Context {N : Number}.

(** Two positions over the same point of the horizontal plane. *)
Definition abreast (p p' : Vector3) : Prop := x p = x p' /\ z p = z p'.

(** The frame with the sources that are not left-hand ones taken out. *)
Definition leftOnly (frame : Frame) : Frame :=
  {| isPresenting := isPresenting frame;
     getSession :=
       option_map
         (fun session =>
            {| inputSources :=
                 option_map
                   (filter (fun src => (handedness src =? "left")%string))
                   (inputSources session) |})
         (getSession frame);
     camera_quaternion := camera_quaternion frame |}.

(** The effects of proximity.js over a session that starts with the flag
    at [near]: colour and console are written in pairs, to red (and "near")
    when the flag was off, to green (and "away") when it was on, turn about. *)
Fixpoint alternating (near : bool) (effects : list Proximity.Effect) : Prop :=
  match effects with
  | [] => True
  | Proximity.SetHex hex :: Proximity.ConsoleLog near' _ :: effects' =>
      hex = (if near then 0x00ff00 else 0xff0000)%Z /\
      near' = negb near /\
      alternating (negb near) effects'
  | _ => False
  end.

(** The flag a session ends with, from the flag it starts with and the
    effects in between: each pair of effects turns it over. *)
Fixpoint flagAfter (near : bool) (effects : list Proximity.Effect) : bool :=
  match effects with
  | Proximity.SetHex _ :: effects' => flagAfter (negb near) effects'
  | _ :: effects' => flagAfter near effects'
  | [] => near
  end.

(** What holds of the cube after [init] and after every frame. *)
Definition cubeKept (st : Proximity.State) : Prop :=
  Proximity.proximityCube_color st
  = (if Proximity.isNearCube st then 0xff0000 else 0x00ff00)%Z /\
  Proximity.proximityCube_position st
  = Proximity.proximityCube_position Proximity.init /\
  (Proximity.isNearCube st = false ->
   Proximity.proximityCube_scale st = dec 1 0).

End Sources.
End Runs.

(** * Properties *)

Unset Implicit Arguments.

(** ** Ground following (terrain.js) *)

Section TerrainProperties.
Import THREE THREE.MathUtils XR Controls.
Context {N : Number}.
Local Open Scope js_scope.

Variable Object3D : Type.
Variable intersectObjects :
  Raycaster -> list Object3D -> bool -> list Intersection.
Variable terrainMeshes : list Object3D.

Abbreviation terrainFollowing :=
  (Terrain.terrainFollowing intersectObjects terrainMeshes).
Abbreviation checkTerrainAtNextPosition :=
  (Terrain.checkTerrainAtNextPosition intersectObjects terrainMeshes).
Abbreviation move := (Terrain.move intersectObjects terrainMeshes).
Abbreviation onInputSource :=
  (Terrain.onInputSource intersectObjects terrainMeshes).
Abbreviation movement := (Terrain.movement intersectObjects terrainMeshes).
Abbreviation animate := (Terrain.animate intersectObjects terrainMeshes).
Abbreviation run := (Terrain.run intersectObjects terrainMeshes).
Abbreviation cameraRig_position := Terrain.cameraRig_position.
Abbreviation currentY := Terrain.currentY.
Abbreviation probe := (Terrain.probe intersectObjects terrainMeshes).
Abbreviation updates := (Terrain.updates intersectObjects terrainMeshes).
Abbreviation smoothed := Terrain.smoothed.
Abbreviation intent := Terrain.intent.

Lemma terrainFollowing_eq p st :
  terrainFollowing p st =
  match probe p with
  | hit :: _ =>
      (true,
       {| Terrain.cameraRig_position :=
            {| x := x (cameraRig_position st);
               y := smoothed (currentY st) (y (point hit));
               z := z (cameraRig_position st) |};
          Terrain.currentY := smoothed (currentY st) (y (point hit)) |})
  | [] => (false, st)
  end.
Proof. reflexivity. Qed.


(** How the forEach callback reaches the move: a left-hand source with a
    gamepad whose stick is out of the deadzone. *)
Lemma onInputSource_move q st src g moveDir :
  handedness src = "left"%string ->
  gamepad src = Some g ->
  sample q g = Some moveDir ->
  onInputSource q st src = move moveDir st.
Proof.
  intros Hh Hg Hs. unfold Terrain.onInputSource. rewrite Hh, Hg, Hs.
  reflexivity.
Qed.

Lemma move_hit moveDir st hit rest :
  probe (addScaledVector (cameraRig_position st) moveDir (dec 5 2))
  = hit :: rest ->
  move moveDir st =
  {| Terrain.cameraRig_position :=
       {| x := x (addScaledVector (cameraRig_position st) moveDir (dec 5 2));
          y := smoothed (currentY st) (y (point hit));
          z := z (addScaledVector (cameraRig_position st) moveDir (dec 5 2)) |};
     Terrain.currentY := smoothed (currentY st) (y (point hit)) |}.
Proof.
  intros H. unfold Terrain.move, Terrain.checkTerrainAtNextPosition.
  change (intersectObjects _ terrainMeshes true)
    with (probe (addScaledVector (cameraRig_position st) moveDir (dec 5 2))).
  rewrite H. reflexivity.
Qed.

Lemma move_no_hit moveDir st :
  probe (addScaledVector (cameraRig_position st) moveDir (dec 5 2)) = [] ->
  move moveDir st =
  {| Terrain.cameraRig_position :=
       addScaledVector (cameraRig_position st) moveDir (dec 5 2);
     Terrain.currentY := currentY st |}.
Proof.
  intros H. unfold Terrain.move, Terrain.checkTerrainAtNextPosition.
  change (intersectObjects _ terrainMeshes true)
    with (probe (addScaledVector (cameraRig_position st) moveDir (dec 5 2))).
  rewrite H. reflexivity.
Qed.

(** C2. When the sampled move vector is [moveDir], the candidate position is
    [nextPos = position + moveDir * 0.05]; if the downward probe under
    [nextPos] hits at height [h2], the move sets the rig's [x] and [z] to
    those of [nextPos], [currentY] to [lerp currentY (h2 + 1.6) 0.2] and the
    rig's [y] to the new [currentY]. *)
Theorem proactive_move q st src g moveDir hit rest :
  handedness src = "left"%string ->
  gamepad src = Some g ->
  sample q g = Some moveDir ->
  let nextPos := addScaledVector (cameraRig_position st) moveDir (dec 5 2) in
  probe nextPos = hit :: rest ->
  let st' := onInputSource q st src in
  x (cameraRig_position st') = x nextPos /\
  z (cameraRig_position st') = z nextPos /\
  currentY st' = lerp (currentY st) (y (point hit) + dec 16 1) (dec 2 1) /\
  y (cameraRig_position st') = currentY st'.
Proof.
  intros Hh Hg Hs nextPos Hp st'. subst st'.
  rewrite (onInputSource_move q st src g moveDir Hh Hg Hs).
  rewrite (move_hit moveDir st hit rest Hp).
  repeat split.
Qed.

(** C3. When the sampled move vector is [moveDir] and the downward probe
    under the candidate position finds nothing, the rig is translated by
    [moveDir * 0.05] all the same, and [currentY] is not updated. *)
Theorem proactive_move_fallback q st src g moveDir :
  handedness src = "left"%string ->
  gamepad src = Some g ->
  sample q g = Some moveDir ->
  probe (addScaledVector (cameraRig_position st) moveDir (dec 5 2)) = [] ->
  let p := cameraRig_position st in
  let st' := onInputSource q st src in
  cameraRig_position st' =
  {| x := x p + x moveDir * dec 5 2;
     y := y p + y moveDir * dec 5 2;
     z := z p + z moveDir * dec 5 2 |} /\
  currentY st' = currentY st.
Proof.
  intros Hh Hg Hs Hp p st'. subst st' p.
  rewrite (onInputSource_move q st src g moveDir Hh Hg Hs).
  rewrite (move_no_hit moveDir st Hp). split; reflexivity.
Qed.

Lemma updates_trans c1 c2 c3 :
  updates c1 c2 -> updates c2 c3 -> updates c1 c3.
Proof.
  intros H12 H23. induction H23 as [|c' p hit rest _ IH Hp].
  - exact H12.
  - eapply Terrain.updates_smooth; [exact IH|exact Hp].
Qed.

Lemma terrainFollowing_updates p st :
  updates (currentY st) (currentY (snd (terrainFollowing p st))).
Proof.
  rewrite terrainFollowing_eq.
  destruct (probe p) as [|hit rest] eqn:Hp; simpl.
  - constructor.
  - eapply Terrain.updates_smooth; [apply Terrain.updates_none|exact Hp].
Qed.

Lemma move_updates moveDir st :
  updates (currentY st) (currentY (move moveDir st)).
Proof.
  destruct (probe (addScaledVector (cameraRig_position st) moveDir (dec 5 2)))
    as [|hit rest] eqn:Hp.
  - rewrite (move_no_hit moveDir st Hp). constructor.
  - rewrite (move_hit moveDir st hit rest Hp).
    eapply Terrain.updates_smooth; [apply Terrain.updates_none|exact Hp].
Qed.

Lemma onInputSource_updates q st src :
  updates (currentY st) (currentY (onInputSource q st src)).
Proof.
  unfold Terrain.onInputSource.
  destruct (handedness src =? "left")%string; [|constructor].
  destruct (gamepad src) as [g|]; [|constructor].
  destruct (sample q g) as [moveDir|]; [|constructor].
  apply move_updates.
Qed.

Lemma forEach_updates q sources : forall st,
  updates (currentY st)
    (currentY (fold_left (onInputSource q) sources st)).
Proof.
  induction sources as [|src sources IH]; intros st; simpl.
  - constructor.
  - exact (updates_trans _ _ _ (onInputSource_updates q st src) (IH _)).
Qed.

Lemma movement_updates frame st :
  updates (currentY st) (currentY (movement frame st)).
Proof.
  unfold Terrain.movement.
  destruct (isPresenting frame); [|constructor].
  destruct (getSession frame) as [session|]; [|constructor].
  destruct (inputSources session) as [sources|]; [|constructor].
  apply forEach_updates.
Qed.

Lemma animate_updates frame st :
  updates (currentY st) (currentY (animate frame st)).
Proof.
  unfold Terrain.animate.
  exact (updates_trans _ _ _ (movement_updates frame st)
           (terrainFollowing_updates _ _)).
Qed.

(** C4. Over any number of frames, [currentY] starts at 1.6 and otherwise
    changes only by updates of the form
    [currentY := lerp currentY (h + 1.6) 0.2], with [h] the height of a hit
    of the downward probe. *)
Theorem currentY_only_smoothed :
  currentY Terrain.init = dec 16 1 /\
  (forall frame st, updates (currentY st) (currentY (animate frame st))) /\
  (forall frames st, updates (currentY st) (currentY (run frames st))).
Proof.
  split; [reflexivity|]. split; [exact animate_updates|].
  induction frames as [|frame frames IH]; intros st; simpl.
  - constructor.
  - exact (updates_trans _ _ _ (animate_updates frame st) (IH _)).
Qed.

Lemma smoothing_shift t h c n :
  Terrain.smoothing t h (lerp c (h + dec 16 1) t) n
  = Terrain.smoothing t h c (S n).
Proof.
  induction n as [|n IH]; [reflexivity|].
  cbn [Terrain.smoothing] in *. rewrite IH. reflexivity.
Qed.


Lemma onInputSource_intent q st src :
  onInputSource q st src =
  match intent q src with
  | Some moveDir => move moveDir st
  | None => st
  end.
Proof.
  unfold Terrain.onInputSource, Terrain.intent.
  destruct (handedness src =? "left")%string; [|reflexivity].
  destruct (gamepad src); reflexivity.
Qed.

Lemma forEach_idle q sources :
  Forall (fun src => intent q src = None) sources ->
  forall st, fold_left (onInputSource q) sources st = st.
Proof.
  induction 1 as [|src sources Hsrc _ IH]; intros st; simpl.
  - reflexivity.
  - rewrite onInputSource_intent, Hsrc. apply IH.
Qed.


End TerrainProperties.

(** ** The input sampler *)

Section ControlsProperties.
Import THREE XR Controls.
Context {N : Number}.
Local Open Scope js_scope.

Lemma sample_eq q g :
  sample q g =
  if (4 <=? List.length (axes g))%nat then
    let sx := nth 2 (axes g) (dec 0 0) in
    let sy := nth 3 (axes g) (dec 0 0) in
    if (abs sx >? dec 15 2) || (abs sy >? dec 15 2) then
      let v := applyQuaternion {| x := sx; y := dec 0 0; z := sy |} q in
      Some (normalize {| x := x v; y := dec 0 0; z := z v |})
    else None
  else None.
Proof. reflexivity. Qed.

Lemma sample_at_rest q g :
  (abs (nth 2 (axes g) (dec 0 0)) <=? dec 15 2) = true ->
  (abs (nth 3 (axes g) (dec 0 0)) <=? dec 15 2) = true ->
  sample q g = None.
Proof.
  intros Hx Hy. rewrite sample_eq.
  destruct (4 <=? List.length (axes g))%nat; [|reflexivity].
  cbv zeta. rewrite (leb_ltb _ _ Hx), (leb_ltb _ _ Hy). reflexivity.
Qed.

(** C6. When both stick axes are within the deadzone, [|x| <= 0.15] and
    [|y| <= 0.15], the sampler returns [null]; the forEach callback of each
    script then leaves its state as it is, so terrain.js moves the rig
    nowhere in its movement step. *)
Theorem deadzone_returns_null q g :
  (abs (nth 2 (axes g) (dec 0 0)) <=? dec 15 2) = true ->
  (abs (nth 3 (axes g) (dec 0 0)) <=? dec 15 2) = true ->
  sample q g = None /\
  forall src, gamepad src = Some g ->
    (forall Object3D intersectObjects (terrainMeshes : list Object3D) st,
       Terrain.onInputSource intersectObjects terrainMeshes q st src = st) /\
    (forall Object3D intersectObjects (collidables : list Object3D) st,
       Collision.onInputSource intersectObjects collidables q st src = st) /\
    (forall st, Proximity.onInputSource q st src = st).
Proof.
  intros Hx Hy.
  assert (Hs := sample_at_rest q g Hx Hy).
  split; [exact Hs|]. intros src Hg. repeat split; intros.
  - unfold Terrain.onInputSource. rewrite Hg, Hs.
    destruct (handedness src =? "left")%string; reflexivity.
  - unfold Collision.onInputSource. rewrite Hg, Hs.
    destruct (handedness src =? "left")%string; reflexivity.
  - unfold Proximity.onInputSource. rewrite Hg, Hs.
    destruct (handedness src =? "left")%string; reflexivity.
Qed.

(** A frame all of whose sticks rest moves the rig of terrain.js nowhere. *)
Lemma deadzone_frame Object3D intersectObjects (terrainMeshes : list Object3D)
  frame st :
  (forall session sources,
     getSession frame = Some session ->
     inputSources session = Some sources ->
     Forall (fun src => forall g, gamepad src = Some g ->
       (abs (nth 2 (axes g) (dec 0 0)) <=? dec 15 2) = true /\
       (abs (nth 3 (axes g) (dec 0 0)) <=? dec 15 2) = true) sources) ->
  Terrain.movement intersectObjects terrainMeshes frame st = st.
Proof.
  intros H. unfold Terrain.movement.
  destruct (isPresenting frame); [|reflexivity].
  destruct (getSession frame) as [session|] eqn:Hs; [|reflexivity].
  destruct (inputSources session) as [sources|] eqn:Hi; [|reflexivity].
  specialize (H session sources eq_refl Hi). clear Hi.
  revert st. induction H as [|src sources Hsrc _ IH]; intros st; simpl.
  - reflexivity.
  - rewrite <- (IH st) at 2. f_equal.
    unfold Terrain.onInputSource.
    destruct (handedness src =? "left")%string; [|reflexivity].
    destruct (gamepad src) as [g|]; [|reflexivity].
    destruct (Hsrc g eq_refl) as [Hx Hy].
    rewrite (sample_at_rest (camera_quaternion frame) g Hx Hy). reflexivity.
Qed.

End ControlsProperties.

(** ** Obstacles (collision.js) *)

Section CollisionProperties.
Import THREE XR Controls.
Context {N : Number}.
Local Open Scope js_scope.

Variable Object3D : Type.
Variable intersectObjects :
  Raycaster -> list Object3D -> bool -> list Intersection.
Variable collidables : list Object3D.

Abbreviation checkCollision :=
  (Collision.checkCollision intersectObjects collidables).
Abbreviation move := (Collision.move intersectObjects collidables).
Abbreviation onInputSource :=
  (Collision.onInputSource intersectObjects collidables).
Abbreviation animate := (Collision.animate intersectObjects collidables).
Abbreviation cameraRig_position := Collision.cameraRig_position.
Abbreviation forwardProbe :=
  (Collision.forwardProbe intersectObjects collidables).

Lemma checkCollision_eq currentPos moveDir :
  checkCollision currentPos moveDir =
  match forwardProbe (addScaledVector currentPos moveDir (dec 5 2)) moveDir with
  | [] => false
  | _ :: _ => true
  end.
Proof.
  unfold Collision.checkCollision, Collision.forwardProbe, Collision.moveSpeed,
    Collision.collisionDistance.
  destruct (intersectObjects _ collidables true); reflexivity.
Qed.

Lemma onInputSource_move_collision q st src g moveDir :
  handedness src = "left"%string ->
  gamepad src = Some g ->
  sample q g = Some moveDir ->
  onInputSource q st src = move moveDir st.
Proof.
  intros Hh Hg Hs. unfold Collision.onInputSource. rewrite Hh, Hg, Hs.
  reflexivity.
Qed.

(** In any arithmetic: a hit of the forward probe leaves the state as it
    is, and without a hit the rig goes to the candidate position. *)
Lemma forward_probe_decides q st src g moveDir :
  handedness src = "left"%string ->
  gamepad src = Some g ->
  sample q g = Some moveDir ->
  let nextPos := addScaledVector (cameraRig_position st) moveDir (dec 5 2) in
  (forwardProbe nextPos moveDir <> [] -> onInputSource q st src = st) /\
  (forwardProbe nextPos moveDir = [] ->
   cameraRig_position (onInputSource q st src) = nextPos).
Proof.
  intros Hh Hg Hs nextPos.
  rewrite (onInputSource_move_collision q st src g moveDir Hh Hg Hs).
  unfold Collision.move. rewrite checkCollision_eq. fold nextPos.
  destruct (forwardProbe nextPos moveDir) as [|hit rest]; simpl; split;
    intros H; try reflexivity; congruence.
Qed.

End CollisionProperties.

(** ** Proximity (proximity.js) *)

Section ProximityProperties.
Import THREE XR Controls Proximity.
Context {N : Number}.
Local Open Scope js_scope.

Variable Math_sin : num -> num.

Abbreviation checkProximity := (Proximity.checkProximity Math_sin).

(** C9. With [d] the distance from the rig to the cube: a far flag becomes
    near exactly when [d < 4.0], so not at [d = 4.0]; a near flag becomes
    far exactly when [d >= 4.0]; the colour is set (and the console written)
    exactly when the flag changes, to red on becoming near and to green on
    becoming far; and the cube is given the oscillating scale
    [1 + sin (now * 0.005) * 0.2] exactly while the new flag is near, and
    scale 1 otherwise. *)
Theorem proximity_threshold :
  forall now st,
  let d := distanceTo (cameraRig_position st) (proximityCube_position st) in
  let effects := fst (checkProximity now st) in
  let st' := snd (checkProximity now st) in
  (isNearCube st = false ->
   (isNearCube st' = true <-> (d <? dec 40 1) = true)) /\
  (isNearCube st = false -> d = dec 40 1 ->
   isNearCube st' = false /\ effects = []) /\
  (isNearCube st = true ->
   (isNearCube st' = false <-> (d >=? dec 40 1) = true)) /\
  (effects <> [] <-> isNearCube st' <> isNearCube st) /\
  (isNearCube st = false -> isNearCube st' = true ->
   effects = [SetHex 0xff0000; ConsoleLog true d] /\
   proximityCube_color st' = 0xff0000%Z) /\
  (isNearCube st = true -> isNearCube st' = false ->
   effects = [SetHex 0x00ff00; ConsoleLog false d] /\
   proximityCube_color st' = 0x00ff00%Z) /\
  (isNearCube st' = isNearCube st ->
   proximityCube_color st' = proximityCube_color st) /\
  proximityCube_scale st' =
  (if isNearCube st'
   then dec 1 0 + Math_sin (now * dec 5 3) * dec 2 1
   else dec 1 0) /\
  cameraRig_position st' = cameraRig_position st /\
  proximityCube_position st' = proximityCube_position st.
Proof.
  intros now st d effects st'. subst effects st'.
  unfold Proximity.checkProximity, proximityDistance. fold d.
  pose proof (ltb_irrefl (dec 40 1)) as Hirr.
  destruct (isNearCube st) eqn:Hn;
    destruct (d <? dec 40 1) eqn:Hlt;
    destruct (d >=? dec 40 1) eqn:Hge;
    simpl; rewrite ?Hn; simpl;
    repeat split; intros; subst; try congruence; try discriminate;
    try reflexivity.
  all: try (exfalso; congruence).
Qed.

End ProximityProperties.

(** ** Exact arithmetic

    The statements below are about the real numbers: what the smoothing and
    the normalisation compute when no operation rounds. *)

Section IdealArithmetic.
Import THREE THREE.MathUtils XR Controls.
#[local] Existing Instance ideal.
Local Open Scope R_scope.

(** Reads the operations of [ideal] as those of [R]. *)
Ltac in_R :=
  change (@num ideal) with R in *;
  change (@add ideal) with Rplus in *;
  change (@sub ideal) with Rminus in *;
  change (@mul ideal) with Rmult in *;
  change (@div ideal) with Rdiv in *;
  change (@sqrt ideal) with R_sqrt.sqrt in *;
  change (@abs ideal) with Rabs in *;
  change (@ltb ideal) with Real.ltb in *;
  change (@leb ideal) with Real.leb in *;
  change (@truthy ideal) with Real.truthy in *;
  change (@dec ideal) with Real.dec in *.

Lemma dec_ideal m e : dec m e = IZR m / IZR (10 ^ Z.of_nat e).
Proof. reflexivity. Qed.

Lemma lerp_three_js a b t : lerp a b t = (1 - t) * a + t * b.
Proof. unfold lerp. in_R. unfold Real.dec. simpl. field. Qed.

(** In exact arithmetic the interpolation is [a + (b - a) * t], as
    [explain/movement-explanation.md] writes it. *)
Lemma lerp_ideal a b t : lerp a b t = a + (b - a) * t.
Proof. rewrite lerp_three_js. in_R. ring. Qed.

Abbreviation smoothing := (@Terrain.smoothing ideal).

Lemma smoothing_error (t h c : R) n :
  smoothing t h c n - (h + dec 16 1) = (1 - t) ^ n * (c - (h + dec 16 1)).
Proof.
  induction n as [|n IH]; cbn [Terrain.smoothing]; in_R.
  - ring.
  - rewrite lerp_ideal. in_R.
    replace (smoothing t h c n + (h + Real.dec 16 1 - smoothing t h c n) * t
             - (h + Real.dec 16 1))
      with ((1 - t) * (smoothing t h c n - (h + Real.dec 16 1))) by ring.
    rewrite IH. cbn [pow]. ring.
Qed.


Lemma dec_0 : Real.dec 0 0 = 0.
Proof. unfold Real.dec. simpl. lra. Qed.

Lemma dec_1 : Real.dec 1 0 = 1.
Proof. unfold Real.dec. simpl. lra. Qed.

Lemma truthy_ideal r : Real.truthy r = true <-> r <> 0.
Proof. unfold Real.truthy. destruct (Req_dec_T r 0); intuition congruence. Qed.

(** The normalisation of a flattened vector [(a, 0, c)]: of unit length
    unless [a] and [c] are both zero, and then the zero vector. *)
Lemma normalize_flat (a c : R) :
  let v := normalize {| x := a; y := dec 0 0; z := c |} in
  y v = 0 /\
  (a <> 0 \/ c <> 0 -> length v = 1) /\
  (a = 0 -> c = 0 -> v = {| x := 0; y := 0; z := 0 |} /\ length v = 0).
Proof.
  intros v. subst v.
  unfold normalize, divideScalar, multiplyScalar, length, lengthSq.
  cbn [x y z]. in_R. rewrite dec_0, dec_1.
  replace (a * a + 0 * 0 + c * c) with (a * a + c * c) by ring.
  set (s := a * a + c * c).
  assert (Hs : 0 <= s) by (unfold s; nra).
  split; [destruct (Real.truthy (R_sqrt.sqrt s)); ring|].
  split.
  - intros Hac.
    assert (Hpos : 0 < s) by (unfold s; destruct Hac; nra).
    assert (Hl : 0 < R_sqrt.sqrt s) by (apply sqrt_lt_R0; exact Hpos).
    destruct (Real.truthy (R_sqrt.sqrt s)) eqn:Ht.
    + pose proof (sqrt_sqrt s Hs) as Hsq.
      set (l := R_sqrt.sqrt s) in *.
      replace (a * (1 / l) * (a * (1 / l)) + 0 * (1 / l) * (0 * (1 / l))
               + c * (1 / l) * (c * (1 / l)))
        with (s / (l * l)) by (unfold s; field; lra).
      rewrite Hsq. replace (s / s) with 1 by (field; lra). apply sqrt_1.
    + exfalso. assert (Real.truthy (R_sqrt.sqrt s) = true)
        by (apply truthy_ideal; lra). congruence.
  - intros Ha Hc. subst a c. unfold s.
    replace (0 * 0 + 0 * 0) with 0 by ring. rewrite sqrt_0.
    assert (Hf : Real.truthy 0 = false).
    { unfold Real.truthy. destruct (Req_dec_T 0 0); [reflexivity|lra]. }
    rewrite Hf. split.
    + f_equal; field.
    + replace (0 * (1 / 1) * (0 * (1 / 1)) + 0 * (1 / 1) * (0 * (1 / 1))
               + 0 * (1 / 1) * (0 * (1 / 1))) with 0 by field.
      apply sqrt_0.
Qed.


Lemma sample_flat q g v : sample q g = Some v -> y v = 0.
Proof.
  rewrite sample_eq.
  destruct (4 <=? List.length (axes g))%nat; [|discriminate].
  cbv zeta.
  destruct (_ || _)%bool; [|discriminate].
  intros H. injection H as <-. apply normalize_flat.
Qed.

(** In exact arithmetic no frame of collision.js changes the rig's height. *)
Lemma collision_keeps_height Object3D intersectObjects
  (collidables : list Object3D) frame st :
  y (Collision.cameraRig_position
       (Collision.animate intersectObjects collidables frame st))
  = y (Collision.cameraRig_position st).
Proof.
  unfold Collision.animate.
  destruct (isPresenting frame); [|reflexivity].
  destruct (getSession frame) as [session|]; [|reflexivity].
  destruct (inputSources session) as [sources|]; [|reflexivity].
  revert st. induction sources as [|src sources IH]; intros st; simpl.
  - reflexivity.
  - rewrite IH. unfold Collision.onInputSource.
    destruct (handedness src =? "left")%string; [|reflexivity].
    destruct (gamepad src) as [g|]; [|reflexivity].
    destruct (sample (camera_quaternion frame) g) as [moveDir|] eqn:Hs;
      [|reflexivity].
    unfold Collision.move.
    destruct (negb _); [|reflexivity].
    cbn [Collision.cameraRig_position addScaledVector y].
    rewrite (sample_flat _ _ _ Hs). in_R. ring.
Qed.

(** In exact arithmetic the rig of terrain.js is always at height
    [currentY]: at the start, and after any frames. *)
Theorem rig_height_is_currentY Object3D intersectObjects
  (terrainMeshes : list Object3D) frames :
  let st := Terrain.run intersectObjects terrainMeshes frames Terrain.init in
  y (Terrain.cameraRig_position st) = Terrain.currentY st.
Proof.
  set (level := fun st : Terrain.State =>
         y (Terrain.cameraRig_position st) = Terrain.currentY st).
  assert (Hsnap : forall p st, level st ->
    level (snd (Terrain.terrainFollowing intersectObjects terrainMeshes p st))).
  { intros p st Hst. unfold Terrain.terrainFollowing.
    destruct (intersectObjects _ terrainMeshes true); [exact Hst|reflexivity]. }
  assert (Hsrc : forall q st src, level st ->
    level (Terrain.onInputSource intersectObjects terrainMeshes q st src)).
  { intros q st src Hst. unfold Terrain.onInputSource.
    destruct (handedness src =? "left")%string; [|exact Hst].
    destruct (gamepad src) as [g|]; [|exact Hst].
    destruct (sample q g) as [moveDir|] eqn:Hs; [|exact Hst].
    unfold Terrain.move, Terrain.checkTerrainAtNextPosition.
    destruct (intersectObjects _ terrainMeshes true); [|reflexivity].
    unfold level in *.
    cbn [Terrain.cameraRig_position Terrain.currentY addScaledVector y].
    rewrite (sample_flat _ _ _ Hs), <- Hst. in_R. ring. }
  assert (Hframe : forall frame st, level st ->
    level (Terrain.animate intersectObjects terrainMeshes frame st)).
  { intros frame st Hst. unfold Terrain.animate. apply Hsnap.
    unfold Terrain.movement.
    destruct (isPresenting frame); [|exact Hst].
    destruct (getSession frame) as [session|]; [|exact Hst].
    destruct (inputSources session) as [sources|]; [|exact Hst].
    revert st Hst. induction sources as [|src sources IH]; intros st Hst.
    - exact Hst.
    - apply IH, Hsrc, Hst. }
  assert (Hrun : forall st, level st ->
    level (Terrain.run intersectObjects terrainMeshes frames st)).
  { induction frames as [|frame frames' IH]; intros st Hst.
    - exact Hst.
    - apply IH, Hframe, Hst. }
  apply Hrun. reflexivity.
Qed.



(** The viewer looks straight down, turned so that pulling the stick back
    points along the vertical: the rotated stick vector is [(0, 1, 0)] and
    the sampled direction is the zero vector. *)
Lemma sample_vertical_ideal :
  let q := {| qx := 1 / 2; qy := 1 / 2; qz := 1 / 2; qw := - (1 / 2) |} in
  let g := {| axes := [0; 0; 0; 1] |} in
  sample q g = Some {| x := 0; y := 0; z := 0 |} /\
  length {| x := 0; y := 0; z := 0 |} = 0 /\
  length {| x := 0; y := 0; z := 0 |} <> 1.
Proof.
  intros q g.
  assert (Hl : length {| x := 0; y := 0; z := 0 |} = 0).
  { unfold length, lengthSq. cbn [x y z]. in_R.
    replace (0 * 0 + 0 * 0 + 0 * 0) with 0 by ring. apply sqrt_0. }
  split; [|split; [exact Hl|rewrite Hl; in_R; lra]].
  rewrite sample_eq. unfold g. cbn [axes List.length Nat.leb nth]. cbv zeta.
  assert (Hd : (abs 1 >? dec 15 2)%js = true).
  { in_R. apply Real.ltb_true. rewrite Rabs_R1. unfold Real.dec. simpl. lra. }
  rewrite Hd, orb_true_r. f_equal.
  apply (normalize_flat _ _).
  - unfold q. cbn [applyQuaternion x y z qx qy qz qw]. in_R.
    unfold Real.dec. simpl. lra.
  - unfold q. cbn [applyQuaternion x y z qx qy qz qw]. in_R.
    unfold Real.dec. simpl. lra.
Qed.

End IdealArithmetic.

(** ** The demo scenes, evaluated on binary64 floats *)

Section OnFloats.
Import THREE THREE.MathUtils XR Controls Boxes.
#[local] Existing Instance js.
Local Open Scope float_scope.

(** Proves the hypotheses of [W] by evaluation, one after the other. *)
Ltac discharge W :=
  cbv zeta in W;
  repeat match type of W with
         | ?A -> _ =>
             let a := fresh in
             assert (a : A)
               by first [ vm_compute; reflexivity
                        | vm_compute; discriminate
                        | constructor ];
             specialize (W a); clear a; cbv zeta in W
         end.

(** Walking forward onto the first step of terrain.js: the probe under the
    candidate position hits the step and the move is committed. *)
Lemma proactive_move_witness :
  let st := rigAt 0 1.6 (-4.2) 1.6 in
  let nextPos := addScaledVector (Terrain.cameraRig_position st) forward 0.05 in
  let st' :=
    Terrain.onInputSource Boxes.intersectObjects terrainMeshes identity st
      (leftStick 0 (-1)) in
  x (Terrain.cameraRig_position st') = x nextPos /\
  z (Terrain.cameraRig_position st') = z nextPos /\
  Terrain.currentY st' = lerp 1.6 (0.20000000000000018 + 1.6) 0.2 /\
  y (Terrain.cameraRig_position st') = Terrain.currentY st'.
Proof.
  assert (W := proactive_move (N := js) _ Boxes.intersectObjects terrainMeshes
    identity (rigAt 0 1.6 (-4.2) 1.6) (leftStick 0 (-1))
    {| axes := [0; 0; 0; -1] |} forward onStep [underStep]).
  discharge W. exact W.
Defined.

(** Walking backward off the floor of terrain.js, whose edge is at z = 15:
    nothing is under the candidate position and the rig moves all the same. *)
Lemma proactive_move_fallback_witness :
  let st := rigAt 0 1.6 14.98 1.6 in
  let st' :=
    Terrain.onInputSource Boxes.intersectObjects terrainMeshes identity st
      (leftStick 0 1) in
  Terrain.cameraRig_position st' =
  {| x := 0 + 0 * 0.05; y := 1.6 + 0 * 0.05; z := 14.98 + 1 * 0.05 |} /\
  Terrain.currentY st' = 1.6.
Proof.
  assert (W := proactive_move_fallback (N := js) _ Boxes.intersectObjects
    terrainMeshes identity (rigAt 0 1.6 14.98 1.6) (leftStick 0 1)
    {| axes := [0; 0; 0; 1] |} backward).
  discharge W. exact W.
Defined.

(** A stick at (0.1, 0.15) is at rest. *)
Lemma deadzone_returns_null_witness :
  sample identity {| axes := [0; 0; 0.1; 0.15] |} = None /\
  Terrain.onInputSource Boxes.intersectObjects terrainMeshes identity
    Terrain.init (leftStick 0.1 0.15) = Terrain.init.
Proof.
  assert (W := deadzone_returns_null (N := js) identity
    {| axes := [0; 0; 0.1; 0.15] |}).
  discharge W. destruct W as [Hs Hsrc]. split; [exact Hs|].
  destruct (Hsrc (leftStick 0.1 0.15) eq_refl) as (Ht & _).
  exact (Ht _ Boxes.intersectObjects terrainMeshes Terrain.init).
Defined.



(** The scenarios of the specification, on the scenes of the scripts. *)

(** Flat floor: the rig at its start, nobody moving; one frame takes
    [currentY] from 1.6 to the double after the next, the two products of
    the interpolation being rounded. *)
Example flat_floor :
  Terrain.animate Boxes.intersectObjects terrainMeshes (frame identity [])
    Terrain.init
  = rigAt 0 1.6000000000000003 3 1.6000000000000003.
Proof. vm_compute. reflexivity. Qed.

(** No ground: beyond the floor the probe meets nothing and the frame
    changes nothing. *)
Example no_ground :
  Terrain.probe Boxes.intersectObjects terrainMeshes
    {| x := 0; y := 1.6; z := 40 |}
  = [] /\
  Terrain.animate Boxes.intersectObjects terrainMeshes (frame identity [])
    (rigAt 0 1.6 40 1.6)
  = rigAt 0 1.6 40 1.6.
Proof. split; vm_compute; reflexivity. Qed.

(** Proximity threshold edge: the rig 4.0 away from the cube with the flag
    off; nothing changes, whatever the clock and [Math.sin]. *)
Example proximity_edge Math_sin now :
  let st :=
    {| Proximity.cameraRig_position := {| x := 0; y := 0.5; z := -1 |};
       Proximity.isNearCube := false;
       Proximity.proximityCube_position := {| x := 0; y := 0.5; z := -5 |};
       Proximity.proximityCube_color := 0x00ff00;
       Proximity.proximityCube_scale := 1 |} in
  distanceTo (Proximity.cameraRig_position st)
    (Proximity.proximityCube_position st) = 4 /\
  Proximity.checkProximity Math_sin now st = ([], st).
Proof. split; vm_compute; reflexivity. Qed.




(** A ray that runs level over a box, or under it, meets no face of it. *)
Lemma intersectBox_over ray b :
  slab (y (origin ray)) (y (direction ray)) (y (lo b)) (y (hi b)) = None ->
  intersectBox ray b = [].
Proof.
  intros H. unfold intersectBox. rewrite H.
  destruct (slab (x (origin ray)) _ _ _) as [[ax bx]|]; reflexivity.
Qed.

(** C8. The forward probe of collision.js does not stop the rig at the
    obstacles of the script.  The rig stands at height 1.6 and the probe is
    cast 0.5 higher, at 2.1, while the obstacles end at height 2: from any
    place at that height and along any level direction [checkCollision]
    finds nothing.  Walking forward from the start, the rig is 0.5 from the
    third obstacle after 140 frames; a ray from the candidate position
    along the move meets the obstacle 0.45 ahead, yet the frame moves the
    rig, which is inside the obstacle after 160 frames and behind it after
    200. *)
Theorem probe_passes_over_obstacles :
  (forall px pz dx dz,
     Collision.checkCollision Boxes.intersectObjects collidables
       {| x := px; y := 1.6; z := pz |} {| x := dx; y := 0; z := dz |}
     = false) /\
  (let walk n :=
     Runs.collision Boxes.intersectObjects collidables
       (repeat (frame identity [leftStick 0 (-1)]) n) Collision.init in
   let at140 := Collision.cameraRig_position (walk 140%nat) in
   let nextPos := addScaledVector at140 forward 0.05 in
   sample identity {| axes := [0; 0; 0; -1] |} = Some forward /\
   at140 = {| x := 0; y := 1.6; z := -3.999999999999992 |} /\
   Boxes.intersectObjects
     {| origin := nextPos; direction := forward; near := 0; far := 1 |}
     collidables true
   = [{| distance := 0.45000000000000817;
         point := {| x := 0; y := 1.6; z := -4.5 |} |}] /\
   Collision.cameraRig_position (walk 141%nat) = nextPos /\
   Collision.cameraRig_position (walk 160%nat)
   = {| x := 0; y := 1.6; z := -4.9999999999999885 |} /\
   existsb (inside (Collision.cameraRig_position (walk 160%nat))) collidables
   = true /\
   Collision.cameraRig_position (walk 200%nat)
   = {| x := 0; y := 1.6; z := -6.9999999999999813 |}).
Proof.
  split.
  - intros px pz dx dz.
    unfold Collision.checkCollision, Boxes.intersectObjects, collidables.
    cbn [flat_map].
    rewrite !intersectBox_over by (vm_compute; reflexivity).
    reflexivity.
  - repeat split; vm_compute; reflexivity.
Qed.


End OnFloats.

(** * Further properties of the scripts *)

(** ** The four scripts compared *)

Section ScriptsCompared.
Import THREE XR Controls.
Context {N : Number}.
Local Open Scope js_scope.

Lemma forEach_leftOnly {State : Type}
  (callback : State -> InputSource -> State) sources :
  (forall st src, (handedness src =? "left")%string = false ->
                  callback st src = st) ->
  forall st,
    fold_left callback
      (filter (fun src => (handedness src =? "left")%string) sources) st
    = fold_left callback sources st.
Proof.
  intros Hskip. induction sources as [|src sources IH]; intros st.
  - reflexivity.
  - cbn [filter fold_left].
    destruct (handedness src =? "left")%string eqn:Hh.
    + cbn [fold_left]. apply IH.
    + rewrite (Hskip st src Hh). apply IH.
Qed.

(** A source that is not a left-hand one changes nothing in any of the four
    scripts: each script treats a frame as it treats the frame with those
    sources taken out. *)
Theorem other_hands_ignored :
  (forall frame st,
     Movement.animate (Runs.leftOnly frame) st = Movement.animate frame st) /\
  (forall Object3D intersectObjects (terrainMeshes : list Object3D) frame st,
     Terrain.animate intersectObjects terrainMeshes (Runs.leftOnly frame) st
     = Terrain.animate intersectObjects terrainMeshes frame st) /\
  (forall Object3D intersectObjects (collidables : list Object3D) frame st,
     Collision.animate intersectObjects collidables (Runs.leftOnly frame) st
     = Collision.animate intersectObjects collidables frame st) /\
  (forall Math_sin now frame st,
     Proximity.animate Math_sin now (Runs.leftOnly frame) st
     = Proximity.animate Math_sin now frame st).
Proof.
  repeat split; intros.
  - unfold Movement.animate, Runs.leftOnly; cbn.
    destruct (isPresenting frame); [|reflexivity].
    destruct (getSession frame) as [session|]; [|reflexivity]. cbn.
    destruct (inputSources session) as [sources|]; [|reflexivity]. cbn.
    apply forEach_leftOnly. intros s src Hh.
    unfold Movement.onInputSource. rewrite Hh. reflexivity.
  - unfold Terrain.animate, Terrain.movement, Runs.leftOnly; cbn.
    destruct (isPresenting frame); [|reflexivity].
    destruct (getSession frame) as [session|]; [|reflexivity]. cbn.
    destruct (inputSources session) as [sources|]; [|reflexivity]. cbn.
    rewrite forEach_leftOnly; [reflexivity|]. intros s src Hh.
    unfold Terrain.onInputSource. rewrite Hh. reflexivity.
  - unfold Collision.animate, Runs.leftOnly; cbn.
    destruct (isPresenting frame); [|reflexivity].
    destruct (getSession frame) as [session|]; [|reflexivity]. cbn.
    destruct (inputSources session) as [sources|]; [|reflexivity]. cbn.
    apply forEach_leftOnly. intros s src Hh.
    unfold Collision.onInputSource. rewrite Hh. reflexivity.
  - unfold Proximity.animate, Runs.leftOnly; cbn.
    destruct (isPresenting frame); [|reflexivity].
    destruct (getSession frame) as [session|]; [|reflexivity]. cbn.
    destruct (inputSources session) as [sources|]; [|reflexivity]. cbn.
    rewrite forEach_leftOnly; [reflexivity|]. intros s src Hh.
    unfold Proximity.onInputSource. rewrite Hh. reflexivity.
Qed.

Abbreviation abreast := Runs.abreast.

Lemma terrain_source_abreast Object3D intersectObjects
  (terrainMeshes : list Object3D) q src st m :
  abreast (Terrain.cameraRig_position st) (Movement.cameraRig_position m) ->
  abreast
    (Terrain.cameraRig_position
       (Terrain.onInputSource intersectObjects terrainMeshes q st src))
    (Movement.cameraRig_position (Movement.onInputSource q m src)).
Proof.
  intros [Hx Hz]. unfold Terrain.onInputSource, Movement.onInputSource.
  destruct (handedness src =? "left")%string; [|split; assumption].
  destruct (gamepad src) as [g|]; [|split; assumption].
  destruct (sample q g) as [moveDir|]; [|split; assumption].
  unfold Terrain.move, Terrain.checkTerrainAtNextPosition.
  unfold Runs.abreast.
  destruct (intersectObjects _ terrainMeshes true);
    cbn [Terrain.cameraRig_position Movement.cameraRig_position
         addScaledVector x z];
    rewrite Hx, Hz; split; reflexivity.
Qed.

Lemma terrain_frame_abreast Object3D intersectObjects
  (terrainMeshes : list Object3D) frame st m :
  abreast (Terrain.cameraRig_position st) (Movement.cameraRig_position m) ->
  abreast
    (Terrain.cameraRig_position
       (Terrain.animate intersectObjects terrainMeshes frame st))
    (Movement.cameraRig_position (Movement.animate frame m)).
Proof.
  intros H. unfold Terrain.animate.
  assert (Hm : abreast
    (Terrain.cameraRig_position
       (Terrain.movement intersectObjects terrainMeshes frame st))
    (Movement.cameraRig_position (Movement.animate frame m))).
  { unfold Terrain.movement, Movement.animate.
    destruct (isPresenting frame); [|exact H].
    destruct (getSession frame) as [session|]; [|exact H].
    destruct (inputSources session) as [sources|]; [|exact H].
    revert st m H. induction sources as [|src sources IH]; intros st m H.
    - exact H.
    - cbn [fold_left]. apply IH, terrain_source_abreast, H. }
  unfold Terrain.terrainFollowing.
  destruct (intersectObjects _ terrainMeshes true); exact Hm.
Qed.

(** Whatever the terrain and whatever the ray caster finds, the rig of
    terrain.js follows in [x] and [z] the path the rig of movement.js takes
    on the same frames: probing the ground never holds a move back nor
    turns it. *)
Theorem terrain_moves_like_movement Object3D intersectObjects
  (terrainMeshes : list Object3D) frames st :
  let st' := Terrain.run intersectObjects terrainMeshes frames st in
  let m' :=
    Movement.run frames
      {| Movement.cameraRig_position := Terrain.cameraRig_position st |} in
  x (Terrain.cameraRig_position st') = x (Movement.cameraRig_position m') /\
  z (Terrain.cameraRig_position st') = z (Movement.cameraRig_position m').
Proof.
  cbv zeta.
  change (abreast
    (Terrain.cameraRig_position
       (Terrain.run intersectObjects terrainMeshes frames st))
    (Movement.cameraRig_position
       (Movement.run frames
          {| Movement.cameraRig_position := Terrain.cameraRig_position st |}))).
  assert (H : abreast (Terrain.cameraRig_position st)
                (Movement.cameraRig_position
                   {| Movement.cameraRig_position :=
                        Terrain.cameraRig_position st |}))
    by (split; reflexivity).
  revert H. generalize {| Movement.cameraRig_position :=
                            Terrain.cameraRig_position st |}.
  revert st. induction frames as [|frame frames IH]; intros st m H.
  - exact H.
  - unfold Terrain.run, Movement.run. cbn [fold_left].
    apply IH, terrain_frame_abreast, H.
Qed.

(** Where the forward probe of collision.js never meets an obstacle, the
    rig of collision.js goes where the rig of movement.js goes. *)
Theorem collision_without_obstacles Object3D intersectObjects
  (collidables : list Object3D) frames st :
  (forall ray, intersectObjects ray collidables true = []) ->
  Collision.cameraRig_position
    (Runs.collision intersectObjects collidables frames st)
  = Movement.cameraRig_position
      (Movement.run frames
         {| Movement.cameraRig_position := Collision.cameraRig_position st |}).
Proof.
  intros Hfree.
  assert (Hsrc : forall q src st,
    Collision.cameraRig_position
      (Collision.onInputSource intersectObjects collidables q st src)
    = Movement.cameraRig_position
        (Movement.onInputSource q
           {| Movement.cameraRig_position := Collision.cameraRig_position st |}
           src)).
  { intros q src s. unfold Collision.onInputSource, Movement.onInputSource.
    destruct (handedness src =? "left")%string; [|reflexivity].
    destruct (gamepad src) as [g|]; [|reflexivity].
    destruct (sample q g) as [moveDir|]; [|reflexivity].
    unfold Collision.move, Collision.checkCollision. rewrite Hfree.
    reflexivity. }
  assert (Hframe : forall frame st,
    Collision.cameraRig_position
      (Collision.animate intersectObjects collidables frame st)
    = Movement.cameraRig_position
        (Movement.animate frame
           {| Movement.cameraRig_position :=
                Collision.cameraRig_position st |})).
  { intros frame s. unfold Collision.animate, Movement.animate.
    destruct (isPresenting frame); [|reflexivity].
    destruct (getSession frame) as [session|]; [|reflexivity].
    destruct (inputSources session) as [sources|]; [|reflexivity].
    revert s. induction sources as [|src sources IH]; intros s.
    - reflexivity.
    - cbn [fold_left]. rewrite IH. f_equal. f_equal.
      destruct (Movement.onInputSource _ _ src) as [p] eqn:E.
      f_equal. rewrite Hsrc, E. reflexivity. }
  revert st. induction frames as [|frame frames IH]; intros st.
  - reflexivity.
  - unfold Runs.collision, Movement.run in *. cbn [fold_left].
    rewrite IH. f_equal. f_equal.
    destruct (Movement.animate frame _) as [p] eqn:E.
    f_equal. rewrite Hframe, E. reflexivity.
Qed.

(** The rig of proximity.js goes where the rig of movement.js goes; the
    proximity check never moves it. *)
Theorem proximity_moves_like_movement Math_sin frames st :
  Proximity.cameraRig_position (snd (Runs.proximity Math_sin frames st))
  = Movement.cameraRig_position
      (Movement.run (map snd frames)
         {| Movement.cameraRig_position := Proximity.cameraRig_position st |}).
Proof.
  assert (Hsrc : forall q src st,
    Proximity.cameraRig_position (Proximity.onInputSource q st src)
    = Movement.cameraRig_position
        (Movement.onInputSource q
           {| Movement.cameraRig_position := Proximity.cameraRig_position st |}
           src)).
  { intros q src s. unfold Proximity.onInputSource, Movement.onInputSource.
    destruct (handedness src =? "left")%string; [|reflexivity].
    destruct (gamepad src) as [g|]; [|reflexivity].
    destruct (sample q g) as [moveDir|]; reflexivity. }
  assert (Hcheck : forall now st,
    Proximity.cameraRig_position
      (snd (Proximity.checkProximity Math_sin now st))
    = Proximity.cameraRig_position st).
  { intros now s. unfold Proximity.checkProximity.
    destruct (_ && _); [reflexivity|]. destruct (_ && _); reflexivity. }
  assert (Hframe : forall now frame st,
    Proximity.cameraRig_position (snd (Proximity.animate Math_sin now frame st))
    = Movement.cameraRig_position
        (Movement.animate frame
           {| Movement.cameraRig_position :=
                Proximity.cameraRig_position st |})).
  { intros now frame s. unfold Proximity.animate. rewrite Hcheck.
    unfold Movement.animate.
    destruct (isPresenting frame); [|reflexivity].
    destruct (getSession frame) as [session|]; [|reflexivity].
    destruct (inputSources session) as [sources|]; [|reflexivity].
    revert s. induction sources as [|src sources IH]; intros s.
    - reflexivity.
    - cbn [fold_left]. rewrite IH. f_equal. f_equal.
      destruct (Movement.onInputSource _ _ src) as [p] eqn:E.
      f_equal. rewrite Hsrc, E. reflexivity. }
  revert st. induction frames as [|[now frame] frames IH]; intros st.
  - reflexivity.
  - cbn [Runs.proximity map snd].
    destruct (Proximity.animate Math_sin now frame st) as [effects st1] eqn:E1.
    destruct (Runs.proximity Math_sin frames st1) as [effects' st2] eqn:E2.
    cbn [snd]. unfold Movement.run in *. cbn [fold_left].
    specialize (IH st1). rewrite E2 in IH. cbn [snd] in IH. rewrite IH.
    f_equal. f_equal.
    destruct (Movement.animate frame _) as [p] eqn:E.
    f_equal. specialize (Hframe now frame st). rewrite E1, E in Hframe.
    exact Hframe.
Qed.

End ScriptsCompared.

(** ** Steps and heights in exact arithmetic *)

Section IdealSteps.
Import THREE THREE.MathUtils XR Controls.
#[local] Existing Instance ideal.
Local Open Scope R_scope.

Ltac in_R :=
  change (@num ideal) with R in *;
  change (@add ideal) with Rplus in *;
  change (@sub ideal) with Rminus in *;
  change (@mul ideal) with Rmult in *;
  change (@div ideal) with Rdiv in *;
  change (@sqrt ideal) with R_sqrt.sqrt in *;
  change (@abs ideal) with Rabs in *;
  change (@ltb ideal) with Real.ltb in *;
  change (@leb ideal) with Real.leb in *;
  change (@truthy ideal) with Real.truthy in *;
  change (@dec ideal) with Real.dec in *.

(** A step of [s] along a direction of unit length is [s] long. *)
Lemma unit_step (p d : Vector3) (s : R) :
  0 <= s -> length d = 1 ->
  distanceTo (addScaledVector p d s) p = s.
Proof.
  intros Hs Hd. unfold distanceTo, addScaledVector, length, lengthSq in *.
  cbn [x y z] in *. in_R.
  replace ((x p + x d * s - x p) * (x p + x d * s - x p)
           + (y p + y d * s - y p) * (y p + y d * s - y p)
           + (z p + z d * s - z p) * (z p + z d * s - z p))
    with (s * s * (x d * x d + y d * y d + z d * z d)) by ring.
  rewrite sqrt_mult_alt by nra.
  rewrite Hd, sqrt_square by exact Hs. ring.
Qed.

Lemma zero_step (p : Vector3) (s : R) :
  addScaledVector p {| x := 0; y := 0; z := 0 |} s = p.
Proof.
  destruct p as [px py pz]. unfold addScaledVector. cbn [x y z]. in_R.
  f_equal; ring.
Qed.

(** What the sampler returns, by the rotated stick vector. *)
Lemma sample_cases q g d :
  sample q g = Some d ->
  y d = 0 /\ (length d = 1 \/ d = {| x := 0; y := 0; z := 0 |}).
Proof.
  intros Hs.
  rewrite sample_eq in Hs.
  destruct (4 <=? List.length (axes g))%nat; [|discriminate].
  cbv zeta in Hs.
  destruct (_ || _)%bool; [|discriminate].
  injection Hs as <-.
  match goal with
  | |- context [normalize {| x := ?a; y := _; z := ?c |}] =>
      destruct (normalize_flat a c) as (Hy & Hunit & Hzero);
      destruct (Req_dec_T a 0) as [Ha|Ha];
      [destruct (Req_dec_T c 0) as [Hc|Hc]|]
  end.
  - split; [exact Hy|]. right. apply (Hzero Ha Hc).
  - split; [exact Hy|]. left. apply Hunit. right. exact Hc.
  - split; [exact Hy|]. left. apply Hunit. left. exact Ha.
Qed.

(** In exact arithmetic a source moves the rig of movement.js by exactly
    0.05 or not at all, and never in height: how far and in which direction
    the stick is pushed beyond the deadzone makes no difference to the
    length of the step. *)
Theorem step_is_moveSpeed_or_none q st src :
  let st' := Movement.onInputSource q st src in
  (distanceTo (Movement.cameraRig_position st') (Movement.cameraRig_position st)
   = dec 5 2 \/
   st' = st) /\
  y (Movement.cameraRig_position st') = y (Movement.cameraRig_position st).
Proof.
  cbv zeta. unfold Movement.onInputSource.
  destruct (handedness src =? "left")%string; [|split; [right|]; reflexivity].
  destruct (gamepad src) as [g|]; [|split; [right|]; reflexivity].
  destruct (sample q g) as [d|] eqn:Hs; [|split; [right|]; reflexivity].
  destruct (sample_cases q g d Hs) as [Hy [Hunit|Hzero]];
    cbn [Movement.cameraRig_position].
  - split.
    + left. apply unit_step; [|exact Hunit].
      in_R. unfold Real.dec. simpl. lra.
    + cbn [addScaledVector y]. rewrite Hy. in_R. ring.
  - subst d. rewrite zero_step. split.
    + right. destruct st. reflexivity.
    + reflexivity.
Qed.

Lemma normalize_scale (k a c : R) :
  0 < k ->
  normalize {| x := k * a; y := dec 0 0; z := k * c |}
  = normalize {| x := a; y := dec 0 0; z := c |}.
Proof.
  intros Hk.
  unfold normalize, divideScalar, multiplyScalar, length, lengthSq.
  cbn [x y z]. in_R. rewrite dec_0, dec_1.
  replace (k * a * (k * a) + 0 * 0 + k * c * (k * c))
    with (k * k * (a * a + 0 * 0 + c * c)) by ring.
  set (s := a * a + 0 * 0 + c * c).
  assert (Hs : 0 <= s) by (unfold s; nra).
  rewrite sqrt_mult_alt by nra. rewrite sqrt_square by lra.
  pose proof (sqrt_pos s) as Hl.
  destruct (Req_dec_T (R_sqrt.sqrt s) 0) as [H0|H0].
  - rewrite H0, Rmult_0_r.
    assert (Hf : Real.truthy 0 = false).
    { unfold Real.truthy. destruct (Req_dec_T 0 0); [reflexivity|lra]. }
    rewrite Hf.
    apply sqrt_eq_0 in H0; [|exact Hs].
    assert (Ha : a = 0) by (unfold s in H0; nra).
    assert (Hc : c = 0) by (unfold s in H0; nra).
    subst a c. f_equal; ring.
  - assert (Ht : Real.truthy (R_sqrt.sqrt s) = true)
      by (apply truthy_ideal; exact H0).
    assert (Ht' : Real.truthy (k * R_sqrt.sqrt s) = true).
    { apply truthy_ideal. apply Rmult_integral_contrapositive_currified; lra. }
    rewrite Ht, Ht'. f_equal; field; lra.
Qed.

Lemma sample_some q g :
  sample q g <> None ->
  sample q g =
  Some (normalize
          {| x := x (applyQuaternion
                       {| x := nth 2 (axes g) (dec 0 0);
                          y := dec 0 0;
                          z := nth 3 (axes g) (dec 0 0) |} q);
             y := dec 0 0;
             z := z (applyQuaternion
                       {| x := nth 2 (axes g) (dec 0 0);
                          y := dec 0 0;
                          z := nth 3 (axes g) (dec 0 0) |} q) |}).
Proof.
  rewrite sample_eq.
  destruct (4 <=? List.length (axes g))%nat; [|congruence].
  cbv zeta. destruct (_ || _)%bool; congruence.
Qed.

(** In exact arithmetic the sampled direction does not depend on how far
    the stick is pushed: two sticks beyond the deadzone, one a positive
    multiple of the other, give the same direction. *)
Theorem deflection_does_not_matter q g g' (k : R) :
  0 < k ->
  nth 2 (axes g') (dec 0 0) = k * nth 2 (axes g) (dec 0 0) ->
  nth 3 (axes g') (dec 0 0) = k * nth 3 (axes g) (dec 0 0) ->
  sample q g <> None ->
  sample q g' <> None ->
  sample q g' = sample q g.
Proof.
  intros Hk Hx Hy Hg Hg'.
  rewrite (sample_some q g Hg), (sample_some q g' Hg'), Hx, Hy.
  f_equal.
  set (v := {| x := nth 2 (axes g) (dec 0 0); y := dec 0 0;
               z := nth 3 (axes g) (dec 0 0) |}).
  set (v' := @Build_Vector3 ideal (k * nth 2 (axes g) (dec 0 0)) (dec 0 0)
               (k * nth 3 (axes g) (dec 0 0))).
  assert (Hrx : x (applyQuaternion v' q) = k * x (applyQuaternion v q)).
  { unfold applyQuaternion, v, v'. cbn [x y z]. in_R. rewrite dec_0. ring. }
  assert (Hrz : z (applyQuaternion v' q) = k * z (applyQuaternion v q)).
  { unfold applyQuaternion, v, v'. cbn [x y z]. in_R. rewrite dec_0. ring. }
  rewrite Hrx, Hrz. apply normalize_scale. exact Hk.
Qed.

(** Half a push to the right and a full push to the right, under a level
    gaze. *)
Lemma deflection_does_not_matter_witness :
  let q := {| qx := 0; qy := 0; qz := 0; qw := 1 |} in
  sample q {| axes := [0; 0; 1 / 2; 0] |} = sample q {| axes := [0; 0; 1; 0] |}.
Proof.
  intros q.
  assert (Hd : forall s : R, 15 / 100 < s ->
    sample q {| axes := [0; 0; s; 0] |} <> None).
  { intros s Hs. rewrite sample_eq. cbn [axes List.length Nat.leb nth].
    cbv zeta.
    assert (Ht : (abs s >? dec 15 2)%js = true).
    { in_R. apply Real.ltb_true. rewrite Rabs_pos_eq by lra.
      unfold Real.dec. simpl. lra. }
    rewrite Ht. discriminate. }
  apply (deflection_does_not_matter q (@Build_Gamepad ideal [0; 0; 1; 0])
           (@Build_Gamepad ideal [0; 0; 1 / 2; 0]) (1 / 2)).
  - lra.
  - cbn [axes nth]. in_R. lra.
  - cbn [axes nth]. in_R. lra.
  - apply Hd. lra.
  - apply Hd. lra.
Defined.

Lemma lerp_between (c target t : R) :
  0 <= t <= 1 ->
  Rmin c target <= lerp c target t <= Rmax c target.
Proof.
  intros Ht. rewrite lerp_ideal. in_R.
  unfold Rmin, Rmax. destruct (Rle_dec c target); split; nra.
Qed.

(** In exact arithmetic the smoothed height of terrain.js never leaves the
    range of the ground it is smoothed toward: when every hit of the
    downward probe is at a height between [lo] and [hi] and [currentY] is
    between [lo + 1.6] and [hi + 1.6], it stays there over any frames. *)
Theorem height_stays_between Object3D intersectObjects
  (terrainMeshes : list Object3D) (lo hi : R) frames st :
  (forall p hit rest,
     Terrain.probe intersectObjects terrainMeshes p = hit :: rest ->
     lo <= y (point hit) <= hi) ->
  lo + dec 16 1 <= Terrain.currentY st <= hi + dec 16 1 ->
  lo + dec 16 1
  <= Terrain.currentY (Terrain.run intersectObjects terrainMeshes frames st)
  <= hi + dec 16 1.
Proof.
  intros Hground Hst.
  assert (Hup : forall c c',
    Terrain.updates intersectObjects terrainMeshes c c' ->
    lo + dec 16 1 <= c <= hi + dec 16 1 ->
    lo + dec 16 1 <= c' <= hi + dec 16 1).
  { intros c c' H Hc. induction H as [|c' p hit rest _ IH Hp].
    - exact Hc.
    - specialize (Hground p hit rest Hp).
      pose proof (lerp_between c' (y (point hit) + dec 16 1) (dec 2 1)) as Hb.
      in_R.
      assert (Ht : 0 <= Real.dec 2 1 <= 1) by (unfold Real.dec; simpl; lra).
      specialize (Hb Ht). unfold Rmin, Rmax in Hb.
      destruct (Rle_dec c' (y (point hit) + Real.dec 16 1)); lra. }
  apply (Hup (Terrain.currentY st)); [|exact Hst].
  clear Hst Hup Hground.
  revert st. induction frames as [|frame frames IH]; intros st.
  - apply Terrain.updates_none.
  - apply (updates_trans _ intersectObjects terrainMeshes _
             (Terrain.currentY
                (Terrain.animate intersectObjects terrainMeshes frame st))).
    + apply animate_updates.
    + apply IH.
Qed.

(** Level ground at height 0 under a rig at rest. *)
Lemma height_stays_between_witness :
  let ground :=
    fun (_ : Raycaster) (_ : list unit) (_ : bool) =>
      [@Build_Intersection ideal 0 (@Build_Vector3 ideal 0 0 0)] in
  let frame :=
    @Build_Frame ideal false None (@Build_Quaternion ideal 0 0 0 1) in
  0 + dec 16 1
  <= Terrain.currentY (Terrain.run ground [tt] [frame] Terrain.init)
  <= 0 + dec 16 1.
Proof.
  intros ground frame.
  apply (height_stays_between unit ground [tt] 0 0 [frame] Terrain.init).
  - intros p hit rest H. unfold Terrain.probe, ground in H.
    injection H as <- _. cbn [point y]. lra.
  - cbn [Terrain.init Terrain.currentY]. in_R. lra.
Defined.

End IdealSteps.

(** ** Proximity over a session *)

Section ProximitySessions.
Import THREE XR Controls Proximity.
Context {N : Number}.
Local Open Scope js_scope.

Variable Math_sin : num -> num.

Abbreviation checkProximity := (Proximity.checkProximity Math_sin).

(** What [checkProximity] does, by the three ways it can go. *)
Lemma checkProximity_cases now st :
  let d := distanceTo (cameraRig_position st) (proximityCube_position st) in
  let pulse := dec 1 0 + Math_sin (now * dec 5 3) * dec 2 1 in
  (isNearCube st = false /\ (d <? dec 40 1) = true /\
   checkProximity now st =
   ([SetHex 0xff0000; ConsoleLog true d],
    {| cameraRig_position := cameraRig_position st;
       isNearCube := true;
       proximityCube_position := proximityCube_position st;
       proximityCube_color := 0xff0000;
       proximityCube_scale := pulse |})) \/
  (isNearCube st = true /\ (d >=? dec 40 1) = true /\
   checkProximity now st =
   ([SetHex 0x00ff00; ConsoleLog false d],
    {| cameraRig_position := cameraRig_position st;
       isNearCube := false;
       proximityCube_position := proximityCube_position st;
       proximityCube_color := 0x00ff00;
       proximityCube_scale := dec 1 0 |})) \/
  (((d <? dec 40 1) && negb (isNearCube st) = false) /\
   ((d >=? dec 40 1) && isNearCube st = false) /\
   checkProximity now st =
   ([],
    {| cameraRig_position := cameraRig_position st;
       isNearCube := isNearCube st;
       proximityCube_position := proximityCube_position st;
       proximityCube_color := proximityCube_color st;
       proximityCube_scale :=
         if isNearCube st then pulse else dec 1 0 |})).
Proof.
  cbv zeta. unfold Proximity.checkProximity, proximityDistance.
  destruct (isNearCube st) eqn:Hn;
    destruct (distanceTo _ _ <? dec 40 1) eqn:Hlt;
    destruct (distanceTo _ _ >=? dec 40 1) eqn:Hge;
    cbn [andb negb isNearCube cameraRig_position proximityCube_position
         proximityCube_color proximityCube_scale];
    rewrite ?Hn; auto 10.
Qed.

(** Checking again at the same place reports nothing: a second call of
    [checkProximity] with rig and cube where they were emits no effect and
    leaves flag and colour as the first call left them. *)
Theorem second_check_is_silent now now' st :
  let st1 := snd (checkProximity now st) in
  fst (checkProximity now' st1) = [] /\
  isNearCube (snd (checkProximity now' st1)) = isNearCube st1 /\
  proximityCube_color (snd (checkProximity now' st1))
  = proximityCube_color st1.
Proof.
  cbv zeta.
  destruct (checkProximity_cases now st) as
    [(Hn & Hd & ->)|[(Hn & Hd & ->)|(H1 & H2 & ->)]]; cbn [snd].
  - match goal with |- context [checkProximity now' ?s] =>
      destruct (checkProximity_cases now' s) as
        [(Hn' & _)|[(_ & Hd' & _)|(_ & _ & ->)]] end.
    + cbn [isNearCube] in Hn'. discriminate Hn'.
    + cbn [cameraRig_position proximityCube_position] in Hd'.
      rewrite (leb_ltb _ _ Hd') in Hd. discriminate.
    + repeat split.
  - match goal with |- context [checkProximity now' ?s] =>
      destruct (checkProximity_cases now' s) as
        [(_ & Hd' & _)|[(Hn' & _)|(_ & _ & ->)]] end.
    + cbn [cameraRig_position proximityCube_position] in Hd'.
      rewrite (leb_ltb _ _ Hd) in Hd'. discriminate.
    + cbn [isNearCube] in Hn'. discriminate Hn'.
    + repeat split.
  - match goal with |- context [checkProximity now' ?s] =>
      destruct (checkProximity_cases now' s) as
        [(Hn' & Hd' & _)|[(Hn' & Hd' & _)|(_ & _ & ->)]] end.
    + cbn [cameraRig_position proximityCube_position isNearCube] in *.
      rewrite Hn', Hd' in H1. discriminate.
    + cbn [cameraRig_position proximityCube_position isNearCube] in *.
      rewrite Hn', Hd' in H2. discriminate.
    + repeat split.
Qed.

Abbreviation cubeKept := Runs.cubeKept.

Lemma movement_keeps_cube q sources : forall st,
  let st' := fold_left (Proximity.onInputSource q) sources st in
  isNearCube st' = isNearCube st /\
  proximityCube_color st' = proximityCube_color st /\
  proximityCube_position st' = proximityCube_position st /\
  proximityCube_scale st' = proximityCube_scale st.
Proof.
  induction sources as [|src sources IH]; intros st; cbn [fold_left].
  - repeat split.
  - cbv zeta in IH. 
    destruct (IH (Proximity.onInputSource q st src)) as (-> & -> & -> & ->).
    unfold Proximity.onInputSource.
    destruct (handedness src =? "left")%string; [|repeat split].
    destruct (gamepad src) as [g|]; [|repeat split].
    destruct (sample q g); repeat split.
Qed.

Lemma animate_session now frame st :
  Runs.alternating (isNearCube st)
    (fst (Proximity.animate Math_sin now frame st)) /\
  isNearCube (snd (Proximity.animate Math_sin now frame st))
  = Runs.flagAfter (isNearCube st)
      (fst (Proximity.animate Math_sin now frame st)) /\
  (cubeKept st -> cubeKept (snd (Proximity.animate Math_sin now frame st))).
Proof.
  unfold Proximity.animate.
  set (st1 := if isPresenting frame then _ else st).
  assert (H1 : isNearCube st1 = isNearCube st /\
               proximityCube_color st1 = proximityCube_color st /\
               proximityCube_position st1 = proximityCube_position st /\
               proximityCube_scale st1 = proximityCube_scale st).
  { unfold st1. destruct (isPresenting frame); [|repeat split].
    destruct (getSession frame) as [session|]; [|repeat split].
    destruct (inputSources session) as [sources|]; [|repeat split].
    apply movement_keeps_cube. }
  destruct H1 as (Hn & Hc & Hp & Hs).
  unfold Runs.cubeKept. rewrite <- Hn, <- Hc, <- Hp, <- Hs.
  destruct (checkProximity_cases now st1) as
    [(Hf & _ & ->)|[(Hf & _ & ->)|(_ & _ & ->)]];
    cbn [fst snd Runs.alternating Runs.flagAfter isNearCube
         proximityCube_color proximityCube_position proximityCube_scale];
    rewrite ?Hf; cbn [negb].
  - split; [repeat split|split; [reflexivity|]].
    intros (Hk & Hq & Hsc). repeat split; [exact Hq|discriminate].
  - split; [repeat split|split; [reflexivity|]].
    intros (Hk & Hq & Hsc). repeat split; exact Hq.
  - split; [exact I|split; [reflexivity|]].
    intros (Hk & Hq & Hsc). repeat split; [exact Hk|exact Hq|].
    intros Hfar. rewrite Hfar. reflexivity.
Qed.

Lemma alternating_app near effects effects' :
  Runs.alternating near effects ->
  Runs.alternating (Runs.flagAfter near effects) effects' ->
  Runs.alternating near (effects ++ effects').
Proof.
  assert (H : forall n effects, (List.length effects <= n)%nat ->
    forall near,
      Runs.alternating near effects ->
      Runs.alternating (Runs.flagAfter near effects) effects' ->
      Runs.alternating near (effects ++ effects')).
  { induction n as [|n IH]; intros es Hlen b Hes Hes'.
    - destruct es; [exact Hes'|cbn in Hlen; lia].
    - destruct es as [|[hex|n0 d] [|[hex'|n' d'] rest]];
        cbn [Runs.alternating] in Hes; try contradiction.
      + exact Hes'.
      + destruct Hes as (Hh & Hn & Hrest).
        cbn [app Runs.alternating]. repeat split; try assumption.
        apply IH; [cbn in Hlen; lia|exact Hrest|exact Hes']. }
  apply (H (List.length effects)). lia.
Qed.

(** Over a session of proximity.js that starts from [init]: the cube is
    red exactly while the flag is on and green otherwise, it never moves,
    and it is at scale 1 whenever the flag is off; and colour and console are
    written turn about, red first, the flag ending on when the cube was last
    turned red. *)
Theorem proximity_session frames :
  let effects := fst (Runs.proximity Math_sin frames Proximity.init) in
  let st := snd (Runs.proximity Math_sin frames Proximity.init) in
  proximityCube_color st = (if isNearCube st then 0xff0000 else 0x00ff00)%Z /\
  proximityCube_position st = proximityCube_position Proximity.init /\
  (isNearCube st = false -> proximityCube_scale st = dec 1 0) /\
  Runs.alternating false effects /\
  isNearCube st = Runs.flagAfter false effects.
Proof.
  cbv zeta.
  assert (H : forall st,
    cubeKept st ->
    cubeKept (snd (Runs.proximity Math_sin frames st)) /\
    Runs.alternating (isNearCube st)
      (fst (Runs.proximity Math_sin frames st)) /\
    isNearCube (snd (Runs.proximity Math_sin frames st))
    = Runs.flagAfter (isNearCube st) (fst (Runs.proximity Math_sin frames st))).
  { induction frames as [|[now frame] frames' IH]; intros st Hst.
    - cbn. auto.
    - cbn [Runs.proximity].
      destruct (animate_session now frame st) as (Ha & Hf & Hk).
      destruct (Proximity.animate Math_sin now frame st) as [effects st1].
      cbn [fst snd] in *.
      destruct (IH st1 (Hk Hst)) as (Hk' & Ha' & Hf').
      destruct (Runs.proximity Math_sin frames' st1) as [effects' st2].
      cbn [fst snd] in *. split; [exact Hk'|]. split.
      + apply alternating_app; [exact Ha|]. rewrite <- Hf. exact Ha'.
      + rewrite Hf', Hf. clear.
        revert effects'. generalize (isNearCube st).
        induction effects as [|[hex|n d] effects IHe]; intros b effects';
          cbn [app Runs.flagAfter]; auto. }
  destruct (H Proximity.init) as ((Hc & Hp & Hs) & Ha & Hf).
  - repeat split.
  - auto.
Qed.

End ProximitySessions.

(** ** Proximity in exact arithmetic *)

Section IdealProximity.
Import THREE XR Controls Proximity.
#[local] Existing Instance ideal.
Local Open Scope R_scope.

Ltac in_R :=
  change (@num ideal) with R in *;
  change (@add ideal) with Rplus in *;
  change (@sub ideal) with Rminus in *;
  change (@mul ideal) with Rmult in *;
  change (@div ideal) with Rdiv in *;
  change (@sqrt ideal) with R_sqrt.sqrt in *;
  change (@abs ideal) with Rabs in *;
  change (@ltb ideal) with Real.ltb in *;
  change (@leb ideal) with Real.leb in *;
  change (@truthy ideal) with Real.truthy in *;
  change (@dec ideal) with Real.dec in *.

(** In exact arithmetic the flag has no memory: after [checkProximity] it
    is on exactly when the rig is less than 4.0 from the cube, whatever it
    was before. *)
Theorem flag_follows_distance Math_sin (now : R) st :
  isNearCube (snd (Proximity.checkProximity Math_sin now st)) = true <->
  distanceTo (cameraRig_position st) (proximityCube_position st) < 4.
Proof.
  assert (H4 : Real.dec 40 1 = 4) by (unfold Real.dec; simpl; lra).
  pose proof (checkProximity_cases Math_sin now st) as Hcases.
  cbv zeta in Hcases.
  remember (distanceTo (cameraRig_position st) (proximityCube_position st))
    as d eqn:Ed in *.
  clear Ed.
  destruct Hcases as [(Hn & Hd & ->)|[(Hn & Hd & ->)|(H1 & H2 & ->)]];
    in_R; cbn [snd isNearCube].
  - apply Real.ltb_true in Hd. rewrite H4 in Hd. tauto.
  - apply Real.leb_true in Hd. rewrite H4 in Hd.
    split; [discriminate|lra].
  - destruct (isNearCube st); cbn [negb andb] in *.
    + rewrite andb_true_r in H2.
      assert (~ (Real.dec 40 1 <= d)).
      { intros Hle. apply Real.leb_true in Hle. congruence. }
      rewrite H4 in *. split; [lra|reflexivity].
    + rewrite andb_true_r in H1. apply Real.ltb_false in H1.
      rewrite H4 in H1. split; [discriminate|lra].
Qed.

(** With the sine for [Math.sin], the scale [checkProximity] gives the cube
    is always between 0.8 and 1.2. *)
Theorem scale_between (now : R) st :
  8 / 10
  <= proximityCube_scale (snd (Proximity.checkProximity sin now st))
  <= 12 / 10.
Proof.
  assert (H1 : Real.dec 1 0 = 1) by (unfold Real.dec; simpl; lra).
  assert (H2 : Real.dec 2 1 = 2 / 10) by (unfold Real.dec; simpl; lra).
  destruct (@checkProximity_cases ideal sin now st) as
    [(_ & _ & ->)|[(_ & _ & ->)|(_ & _ & ->)]];
    cbn [snd proximityCube_scale]; in_R; rewrite ?H1, ?H2.
  - pose proof (SIN_bound (now * Real.dec 5 3)). lra.
  - lra.
  - destruct (isNearCube st); [|lra].
    pose proof (SIN_bound (now * Real.dec 5 3)). lra.
Qed.

End IdealProximity.

(** ** The city with the tsunami (world.js) *)

Section CityProperties.
Import THREE THREE.MathUtils Controls City.
Context {N : Number}.
Local Open Scope js_scope.

Variable Object3D : Type.
Variable intersectObject :
  Raycaster -> Object3D -> bool -> list Intersection.
Variable Math_sin : num -> num.
Variable Math_PI : num.

Abbreviation State := (@City.State N Object3D).
Abbreviation Event := (@City.Event N Object3D).
Abbreviation updateTsunami := (@City.updateTsunami N Object3D Math_sin).
Abbreviation terrainFollowing := (City.terrainFollowing intersectObject).
Abbreviation animateLights :=
  (@City.animateLights N Object3D Math_sin Math_PI).
Abbreviation animate := (City.animate intersectObject Math_sin Math_PI).
Abbreviation step := (City.step intersectObject Math_sin Math_PI).
Abbreviation run := (City.run intersectObject Math_sin Math_PI).

Lemma onTrigger_tsunami g (st : State) :
  (tsunami (onTrigger g st) = tsunami st /\
   ((0 <? List.length (buttons g))%nat
    && pressed (nth 0 (buttons g) {| pressed := false |})
    && negb (triggerPressed st)
    && negb (tsunamiActive (tsunami st)) = false)) \/
  (tsunami (onTrigger g st) = started (tsunami st) /\
   tsunamiActive (tsunami st) = false /\
   triggerPressed st = false /\
   (0 <? List.length (buttons g))%nat = true /\
   pressed (nth 0 (buttons g) {| pressed := false |}) = true).
Proof.
  unfold onTrigger, startTsunami.
  destruct (0 <? List.length (buttons g))%nat; [|left; split; reflexivity].
  destruct (pressed (nth 0 (buttons g) {| pressed := false |}));
    destruct (triggerPressed st); cbn [andb negb triggerPressed tsunami
      set_triggerPressed set_tsunami]; try (left; split; reflexivity).
  destruct (tsunamiActive (tsunami st)) eqn:Ha; cbn [negb];
    [left; split; reflexivity|].
  right. repeat split.
Qed.

Lemma onTrigger_others g (st : State) :
  cameraRig_position (onTrigger g st) = cameraRig_position st /\
  currentPlayerHeight (onTrigger g st) = currentPlayerHeight st /\
  cityModel (onTrigger g st) = cityModel st /\
  isWalking (onTrigger g st) = isWalking st /\
  lastFootstepTime (onTrigger g st) = lastFootstepTime st /\
  footstepSound (onTrigger g st) = footstepSound st.
Proof.
  unfold onTrigger, startTsunami.
  destruct (0 <? List.length (buttons g))%nat; [|repeat split].
  destruct (pressed _ && _).
  - cbn [tsunami set_triggerPressed].
    destruct (negb _); repeat split.
  - destruct (negb _); repeat split.
Qed.

(** What [onStick] leaves alone: the tsunami, the trigger flag, the height
    being smoothed and the model. *)
Lemma onStick_keeps frame g m calls (st : State) :
  let st' := snd (onStick frame g (m, calls, st)) in
  tsunami st' = tsunami st /\
  triggerPressed st' = triggerPressed st /\
  currentPlayerHeight st' = currentPlayerHeight st /\
  cityModel st' = cityModel st.
Proof.
  cbv zeta. unfold onStick.
  destruct (sample _ _); [|repeat split].
  destruct (buffer _); [|repeat split].
  destruct (_ >? _)%Z; [|repeat split].
  destruct (isPlaying _); repeat split.
Qed.

Lemma onInputSource_tsunami frame m calls (st : State) src :
  let st' := snd (onInputSource frame (m, calls, st) src) in
  (tsunami st' = tsunami st \/
   (tsunami st' = started (tsunami st) /\
    tsunamiActive (tsunami st) = false /\ pulls src = true)) /\
  (tsunamiActive (tsunami st) = true \/ triggerPressed st = false ->
   (tsunamiActive (tsunami st') = true \/ triggerPressed st' = false) /\
   (pulls src = true -> tsunamiActive (tsunami st') = true)).
Proof.
  cbv zeta. unfold onInputSource, pulls.
  destruct (handedness src =? "left")%string; cbn [andb snd];
    [|split; [left; reflexivity|intros H; split; [exact H|discriminate]]].
  destruct (gamepad src) as [g|]; cbn [snd];
    [|split; [left; reflexivity|intros H; split; [exact H|discriminate]]].
  destruct (onStick_keeps frame g m calls (onTrigger g st)) as (-> & -> & _).
  destruct (onTrigger_tsunami g st) as [[-> Hc]|(-> & Ha & Hf & Hb & Hp)].
  - split; [left; reflexivity|].
    intros H. unfold onTrigger, startTsunami in *.
    destruct (0 <? List.length (buttons g))%nat; cbn [andb] in *;
      [|split; [exact H|discriminate]].
    destruct (pressed (nth 0 (buttons g) {| pressed := false |}));
      cbn [andb negb] in *.
    + destruct (triggerPressed st) eqn:Hf; cbn [negb] in *.
      * destruct H as [H|H]; [|discriminate].
        split; [left; exact H|intros _; exact H].
      * cbn [tsunami set_triggerPressed triggerPressed] in *.
        destruct (tsunamiActive (tsunami st)); [|discriminate].
        split; [left; reflexivity|reflexivity].
    + split; [right; reflexivity|discriminate].
  - split; [right; repeat split; try assumption; rewrite Hb, Hp; reflexivity|].
    intros _. split; [left; reflexivity|reflexivity].
Qed.

Lemma forEach_tsunami frame sources : forall m calls (st : State),
  let st' := snd (fold_left (onInputSource frame) sources (m, calls, st)) in
  (tsunami st' = tsunami st \/ tsunami st' = started (tsunami st)) /\
  (existsb pulls sources = false -> tsunami st' = tsunami st) /\
  (armed st ->
   armed st' /\
   tsunamiActive (tsunami st') =
     tsunamiActive (tsunami st) || existsb pulls sources).
Proof.
  induction sources as [|src sources IH]; intros m calls st; cbn [fold_left].
  - cbn [snd existsb]. split; [left; reflexivity|].
    split; [reflexivity|]. intros H. split; [exact H|].
    rewrite orb_false_r. reflexivity.
  - pose proof (onInputSource_tsunami frame m calls st src) as H1.
    destruct (onInputSource frame (m, calls, st) src) as [[m1 calls1] st1].
    cbn [snd] in H1. cbv zeta in H1. destruct H1 as [Hs Ha].
    specialize (IH m1 calls1 st1). cbv zeta in IH |- *.
    destruct IH as (IHs & IHn & IHa). cbn [existsb].
    split; [|split].
    + destruct IHs as [->| ->]; destruct Hs as [->|(-> & _)]; auto.
    + intros Hn. apply orb_false_elim in Hn. destruct Hn as [Hp Hn].
      rewrite (IHn Hn). destruct Hs as [->|(_ & _ & Hp')]; [reflexivity|].
      congruence.
    + intros Harm. destruct (Ha Harm) as [Harm1 Hpull].
      destruct (IHa Harm1) as [Harm' Hact]. split; [exact Harm'|].
      rewrite Hact, orb_assoc. f_equal.
      destruct Hs as [Hs|(Hs & Hf & Hp)].
      * destruct (pulls src); [|rewrite Hs, orb_false_r; reflexivity].
        rewrite (Hpull eq_refl), orb_true_r. reflexivity.
      * rewrite Hs, Hf, Hp. reflexivity.
Qed.

Lemma handleMovement_tsunami frame (st : State) :
  let st' := snd (handleMovement frame st) in
  (tsunami st' = tsunami st \/ tsunami st' = started (tsunami st)) /\
  (triggerPulled frame = false -> tsunami st' = tsunami st) /\
  (armed st ->
   armed st' /\
   tsunamiActive (tsunami st') =
     tsunamiActive (tsunami st) || triggerPulled frame).
Proof.
  assert (Hid :
    (tsunami st = tsunami st \/ tsunami st = started (tsunami st)) /\
    (armed st ->
     armed st /\
     tsunamiActive (tsunami st) = tsunamiActive (tsunami st) || false)).
  { split; [left; reflexivity|].
    intros H. split; [exact H|]. rewrite orb_false_r. reflexivity. }
  destruct Hid as (Hi1 & Hi3).
  cbv zeta. unfold handleMovement, triggerPulled.
  destruct (isPresenting frame); cbn [andb snd];
    [|split; [exact Hi1|split; [reflexivity|exact Hi3]]].
  destruct (getSession frame) as [session|]; cbn [snd];
    [|split; [exact Hi1|split; [reflexivity|exact Hi3]]].
  destruct (inputSources session) as [sources|]; cbn [snd];
    [|split; [exact Hi1|split; [reflexivity|exact Hi3]]].
  pose proof (forEach_tsunami frame sources false [] st) as H.
  destruct (fold_left _ _ _) as [[m calls] st1]. cbn [snd] in H.
  cbv zeta in H.
  assert (Hk : forall a : list AudioCall * State,
    a = (if negb m && isPlaying (footstepSound st1)
         then (calls ++ [Stop], stop st1) else (calls, st1)) ->
    tsunami (snd (let '(calls, st) := a in (calls, set_isWalking m st)))
      = tsunami st1 /\
    triggerPressed
      (snd (let '(calls, st) := a in (calls, set_isWalking m st)))
      = triggerPressed st1).
  { intros a ->. destruct (negb m && _); split; reflexivity. }
  destruct (Hk _ eq_refl) as [Ht Hp]. unfold armed in *.
  rewrite Ht, Hp. exact H.
Qed.

Lemma updateTsunami_flags frame (st : State) :
  tsunamiActive (tsunami (updateTsunami frame st))
    = tsunamiActive (tsunami st) /\
  tsunamiWater_visible (tsunami (updateTsunami frame st))
    = tsunamiWater_visible (tsunami st) /\
  triggerPressed (updateTsunami frame st) = triggerPressed st /\
  (tsunamiActive (tsunami st) = false -> updateTsunami frame st = st).
Proof.
  unfold City.updateTsunami.
  destruct (isPresenting frame); cbn [negb]; [|repeat split].
  destruct (tsunamiActive (tsunami st)) eqn:Ha; cbn [negb];
    [|repeat split; assumption].
  destruct (_ <? _); repeat split; try assumption; discriminate.
Qed.

Lemma terrainFollowing_keeps (st : State) :
  tsunami (terrainFollowing st) = tsunami st /\
  triggerPressed (terrainFollowing st) = triggerPressed st /\
  isWalking (terrainFollowing st) = isWalking st /\
  lastFootstepTime (terrainFollowing st) = lastFootstepTime st /\
  footstepSound (terrainFollowing st) = footstepSound st.
Proof.
  unfold City.terrainFollowing.
  destruct (cityModel st); [|repeat split].
  destruct (intersectObject _ _ _); repeat split.
Qed.

Lemma animate_snd frame (st : State) :
  snd (animate frame st)
  = animateLights frame
      (terrainFollowing
         (snd (handleMovement frame (updateTsunami frame st)))).
Proof.
  unfold City.animate. destruct (handleMovement _ _). reflexivity.
Qed.

Lemma run_snd_cons event events (st : State) :
  snd (run (event :: events) st) = snd (run events (snd (step event st))).
Proof.
  cbn [City.run]. destruct (step event st) as [calls st']. cbn [snd].
  destruct (run events st'). reflexivity.
Qed.

Lemma step_tsunami event (st : State) :
  let st' := snd (step event st) in
  (armed st ->
   armed st' /\
   tsunamiActive (tsunami st') =
     tsunamiActive (tsunami st) || everPulled [event]) /\
  (tsunamiActive (tsunami st) = false -> everPulled [event] = false ->
   tsunami st' = tsunami st) /\
  (meshFollows (tsunami st) -> meshFollows (tsunami st')).
Proof.
  cbv zeta. unfold everPulled. cbn [existsb]. rewrite orb_false_r.
  destruct event as [frame|model| |]; cbn [City.step snd];
    try (split; [intros H; split; [exact H|]; rewrite orb_false_r;
                 reflexivity|split; [reflexivity|intros H; exact H]]).
  rewrite animate_snd.
  destruct (terrainFollowing_keeps
              (snd (handleMovement frame (updateTsunami frame st))))
    as (Ht & Hp & _).
  destruct (updateTsunami_flags frame st) as (Ua & Uv & Up & Un).
  destruct (handleMovement_tsunami frame (updateTsunami frame st))
    as (Hs & Hn & Ha). cbv zeta in Hs, Hn, Ha.
  unfold armed in *. cbn [City.animateLights City.set_accentLights
    tsunami triggerPressed]. rewrite Ht, Hp.
  split; [|split].
  - intros H. rewrite Ua, Up in Ha. exact (Ha H).
  - intros Hf Hpull. rewrite (Hn Hpull), (Un Hf). reflexivity.
  - intros Hm.
    assert (Hu : meshFollows (tsunami (updateTsunami frame st))).
    { unfold City.updateTsunami.
      destruct (isPresenting frame); cbn [negb]; [|exact Hm].
      destruct (tsunamiActive (tsunami st)) eqn:E; cbn [negb]; [|exact Hm].
      destruct (_ <? _); [|exact Hm].
      destruct Hm as [Hv Hy]. split; [cbn; congruence|reflexivity]. }
    destruct Hs as [->| ->]; [exact Hu|].
    destruct Hu as [Hv Hy]. split; [reflexivity|exact Hy].
Qed.

Lemma everPulled_cons (event : Event) events :
  everPulled (event :: events) = everPulled [event] || everPulled events.
Proof.
  unfold everPulled. cbn [existsb]. rewrite orb_false_r. reflexivity.
Qed.

Lemma run_tsunami events : forall st : State,
  let st' := snd (run events st) in
  (armed st ->
   armed st' /\
   tsunamiActive (tsunami st') =
     tsunamiActive (tsunami st) || everPulled events) /\
  (tsunamiActive (tsunami st) = false -> everPulled events = false ->
   tsunami st' = tsunami st) /\
  (meshFollows (tsunami st) -> meshFollows (tsunami st')).
Proof.
  induction events as [|event events IH]; intros st.
  - cbn. split; [intros H; split; [exact H|apply eq_sym, orb_false_r]|].
    split; [reflexivity|intros H; exact H].
  - cbv zeta. rewrite run_snd_cons.
    destruct (step_tsunami event st) as (Sa & Sn & Sm). cbv zeta in Sa, Sn, Sm.
    destruct (IH (snd (step event st))) as (Ia & In' & Im).
    cbv zeta in Ia, In', Im.
    rewrite (everPulled_cons event events).
    split; [|split].
    + intros H. destruct (Sa H) as [H1 E1]. destruct (Ia H1) as [H2 E2].
      split; [exact H2|]. rewrite E2, E1, orb_assoc. reflexivity.
    + intros Hf Hp. apply orb_false_elim in Hp. destruct Hp as [Hp1 Hp2].
      pose proof (Sn Hf Hp1) as E. rewrite In'; [exact E| |exact Hp2].
      rewrite E. exact Hf.
    + intros H. exact (Im (Sm H)).
Qed.

(** From the start of the script the tsunami is active exactly when the
    trigger of a left-hand controller has been pulled in some frame of a
    presenting session. *)
Theorem tsunami_active_iff_pulled (events : list Event) :
  tsunamiActive (tsunami (snd (run events (City.init Object3D))))
  = everPulled events.
Proof.
  destruct (run_tsunami events (City.init Object3D)) as (Ha & _).
  destruct Ha as [_ ->]; [right; reflexivity|reflexivity].
Qed.

(** As long as no left trigger is pulled the water stays as it is: its
    level, its mesh and the opacity of its material. *)
Theorem water_waits_for_trigger (events : list Event) (st : State) :
  tsunamiActive (tsunami st) = false ->
  everPulled events = false ->
  tsunami (snd (run events st)) = tsunami st.
Proof.
  intros Hf Hp. destruct (run_tsunami events st) as (_ & Hn & _).
  exact (Hn Hf Hp).
Qed.

(** From the start of the script the water mesh is visible exactly when
    the tsunami is active, and its centre is 2.5 above the water level. *)
Theorem water_mesh_follows_level (events : list Event) :
  let t := tsunami (snd (run events (City.init Object3D))) in
  tsunamiWater_visible t = tsunamiActive t /\
  tsunamiWater_position_y t = waterLevel t + dec 25 1.
Proof.
  destruct (run_tsunami events (City.init Object3D)) as (_ & _ & Hm).
  apply Hm. split; reflexivity.
Qed.

(** *** The footstep sound *)

Lemma starts_app frame calls calls' :
  starts frame (calls ++ calls') = starts frame calls ++ starts frame calls'.
Proof. apply flat_map_app. Qed.

Lemma onStick_sound frame g m calls (st : State) last :
  paced last (Date_now frame) (starts frame calls) (lastFootstepTime st) ->
  let '(m', calls', st') := onStick frame g (m, calls, st) in
  paced last (Date_now frame) (starts frame calls') (lastFootstepTime st') /\
  (loaded st -> loaded st').
Proof.
  intros Hp. unfold onStick.
  destruct (sample _ _) as [moveDir|]; [|auto].
  cbn [footstepSound lastFootstepTime set_cameraRig_position].
  destruct (buffer (footstepSound st)) eqn:Hb; [|auto].
  destruct (_ >? _)%Z eqn:Hgt; [|auto].
  rewrite Z.gtb_ltb in Hgt. apply Z.ltb_lt in Hgt.
  assert (Hplay : forall a : list AudioCall * State,
    starts frame (fst a) = starts frame calls ->
    buffer (footstepSound (snd a)) = true ->
    let '(calls0, st0) := a in
    paced last (Date_now frame) (starts frame (calls0 ++ [Play]))
      (lastFootstepTime (set_lastFootstepTime (Date_now frame) (play st0)))
    /\ (loaded st ->
        loaded (set_lastFootstepTime (Date_now frame) (play st0)))).
  { intros [calls0 st0] Hs Hb0. cbn [fst snd] in Hs, Hb0.
    rewrite starts_app, Hs. split.
    - right. destruct Hp as [[E1 E2]|(_ & _ & E)].
      + rewrite E1, E2 in *. repeat split. lia.
      + rewrite E in Hgt. unfold footstepInterval in Hgt. lia.
    - intros _ _. exact Hb0. }
  destruct (isPlaying (footstepSound st)).
  - apply (Hplay (calls ++ [Stop], stop _)); [|exact Hb].
    cbn [fst]. rewrite starts_app. apply app_nil_r.
  - apply (Hplay (calls, _)); [reflexivity|exact Hb].
Qed.

Lemma forEach_sound frame sources last : forall m calls (st : State),
  paced last (Date_now frame) (starts frame calls) (lastFootstepTime st) ->
  let '(m', calls', st') :=
    fold_left (onInputSource frame) sources (m, calls, st) in
  paced last (Date_now frame) (starts frame calls') (lastFootstepTime st') /\
  (loaded st -> loaded st').
Proof.
  induction sources as [|src sources IH]; intros m calls st Hp;
    cbn [fold_left]; [auto|].
  assert (H1 :
    let '(m1, calls1, st1) := onInputSource frame (m, calls, st) src in
    paced last (Date_now frame) (starts frame calls1)
      (lastFootstepTime st1) /\
    (loaded st -> loaded st1)).
  { unfold onInputSource.
    destruct (handedness src =? "left")%string; [|auto].
    destruct (gamepad src) as [g|]; [|auto].
    destruct (onTrigger_others g st) as (_ & _ & _ & _ & Ht & Hs).
    pose proof (onStick_sound frame g m calls (onTrigger g st) last) as H.
    unfold loaded in *. rewrite Ht, Hs in H. exact (H Hp). }
  destruct (onInputSource frame (m, calls, st) src) as [[m1 calls1] st1].
  destruct H1 as [Hp1 Hl1]. specialize (IH m1 calls1 st1 Hp1).
  destruct (fold_left _ _ _) as [[m' calls'] st'].
  destruct IH as [Hp' Hl']. auto.
Qed.

Lemma handleMovement_sound frame (st : State) :
  let '(calls, st') := handleMovement frame st in
  paced (lastFootstepTime st) (Date_now frame) (starts frame calls)
    (lastFootstepTime st') /\
  (audible st -> audible st').
Proof.
  assert (Hid :
    paced (lastFootstepTime st) (Date_now frame) (starts frame [])
      (lastFootstepTime st) /\ (audible st -> audible st)).
  { split; [left; split; reflexivity|auto]. }
  unfold handleMovement.
  destruct (isPresenting frame); [|exact Hid].
  destruct (getSession frame) as [session|]; [|exact Hid].
  destruct (inputSources session) as [sources|]; [|exact Hid].
  pose proof (forEach_sound frame sources (lastFootstepTime st) false [] st
                (proj1 Hid)) as H.
  destruct (fold_left _ _ _) as [[m calls] st1]. destruct H as [Hp Hl].
  unfold audible, loaded in *.
  destruct m; cbn [negb andb].
  - split; [exact Hp|]. intros Ha Hplay. cbn in *. split; [reflexivity|].
    apply Hl; [|exact Hplay]. intros H. apply Ha. exact H.
  - destruct (isPlaying (footstepSound st1)) eqn:E.
    + split; [|intros _; cbn; discriminate].
      rewrite starts_app. cbn [starts flat_map]. rewrite app_nil_r.
      exact Hp.
    + split; [exact Hp|]. intros _. cbn. rewrite E. discriminate.
Qed.

Lemma updateTsunami_keeps frame (st : State) :
  cameraRig_position (updateTsunami frame st) = cameraRig_position st /\
  currentPlayerHeight (updateTsunami frame st) = currentPlayerHeight st /\
  cityModel (updateTsunami frame st) = cityModel st /\
  isWalking (updateTsunami frame st) = isWalking st /\
  lastFootstepTime (updateTsunami frame st) = lastFootstepTime st /\
  footstepSound (updateTsunami frame st) = footstepSound st.
Proof.
  unfold City.updateTsunami.
  destruct (negb (isPresenting frame)); [repeat split|].
  destruct (negb (tsunamiActive (tsunami st))); [repeat split|].
  destruct (_ <? _); repeat split.
Qed.

Lemma animate_sound frame (st : State) :
  let '(calls, st') := animate frame st in
  paced (lastFootstepTime st) (Date_now frame) (starts frame calls)
    (lastFootstepTime st') /\
  (audible st -> audible st').
Proof.
  unfold City.animate.
  destruct (updateTsunami_keeps frame st) as (_ & _ & _ & Uw & Ut & Us).
  pose proof (handleMovement_sound frame (updateTsunami frame st)) as H.
  destruct (handleMovement _ _) as [calls st1].
  destruct (terrainFollowing_keeps st1) as (_ & _ & Tw & Tt & Ts).
  unfold audible in *.
  cbn [City.animateLights City.set_accentLights lastFootstepTime
    footstepSound isWalking].
  rewrite Tw, Tt, Ts. rewrite Uw, Ut, Us in H. exact H.
Qed.

Lemma step_sound event (st : State) :
  let '(calls, st') := step event st in
  (exists now,
     paced (lastFootstepTime st) now (playTimes [(event, calls)])
       (lastFootstepTime st')) /\
  (audible st -> audible st').
Proof.
  destruct event as [frame|model| |]; cbn [City.step].
  - pose proof (animate_sound frame st) as H.
    destruct (animate frame st) as [calls st']. destruct H as [Hp Ha].
    split; [exists (Date_now frame)|exact Ha].
    cbn [playTimes flat_map fst snd]. rewrite app_nil_r. exact Hp.
  - split; [exists 0%Z; left; split; reflexivity|auto].
  - split; [exists 0%Z; left; split; reflexivity|].
    unfold audible. cbn. intros H Hplay. split; [apply H, Hplay|reflexivity].
  - split; [exists 0%Z; left; split; reflexivity|].
    unfold audible. cbn. discriminate.
Qed.

Lemma last_default (a : Z) l d d' :
  List.last (a :: l) d = List.last (a :: l) d'.
Proof.
  revert a. induction l as [|b l IH]; intros a; [reflexivity|].
  change (List.last (b :: l) d = List.last (b :: l) d'). apply IH.
Qed.

Lemma paced_spaced last now times last1 times' :
  paced last now times last1 ->
  spaced last1 times' ->
  spaced last (times ++ times') /\
  List.last (times ++ times') last = List.last times' last1.
Proof.
  intros [[-> ->]|(-> & Hgt & ->)] Hs; [split; [exact Hs|reflexivity]|].
  cbn [app]. split; [split; assumption|].
  destruct times' as [|a l]; [reflexivity|].
  change (List.last (a :: l) last = List.last (a :: l) now).
  apply last_default.
Qed.

Lemma playTimes_cons (entry : Event * list AudioCall) trace :
  playTimes (entry :: trace) = playTimes [entry] ++ playTimes trace.
Proof.
  unfold playTimes. cbn [flat_map]. rewrite app_nil_r. reflexivity.
Qed.

Lemma run_sound events : forall st : State,
  let '(trace, st') := run events st in
  spaced (lastFootstepTime st) (playTimes trace) /\
  lastFootstepTime st' = List.last (playTimes trace) (lastFootstepTime st) /\
  (audible st -> audible st').
Proof.
  induction events as [|event events IH]; intros st; cbn [City.run].
  - cbn. auto.
  - pose proof (step_sound event st) as H.
    destruct (step event st) as [calls st1]. destruct H as [[now Hp] Ha].
    specialize (IH st1). destruct (run events st1) as [trace st'].
    destruct IH as (Hs & Hl & Ha').
    rewrite (playTimes_cons (event, calls) trace).
    destruct (paced_spaced _ _ _ _ _ Hp Hs) as [Hs' Hl'].
    rewrite Hl'. auto.
Qed.

(** The footstep sound is started at most once per frame, each time more
    than 400 ms on the clock after the time before, and [lastFootstepTime]
    is the last of these times. *)
Theorem footsteps_spaced (events : list Event) (st : State) :
  let '(trace, st') := run events st in
  spaced (lastFootstepTime st) (playTimes trace) /\
  lastFootstepTime st' = List.last (playTimes trace) (lastFootstepTime st).
Proof.
  pose proof (run_sound events st) as H.
  destruct (run events st) as [trace st']. split; apply H.
Qed.

(** From the start of the script the footstep sound is silent unless the
    player was walking in the last frame of a session and the buffer of the
    sound is loaded. *)
Theorem sound_only_while_walking (events : list Event) :
  let st := snd (run events (City.init Object3D)) in
  isPlaying (footstepSound st) = false \/
  (isWalking st = true /\ buffer (footstepSound st) = true).
Proof.
  pose proof (run_sound events (City.init Object3D)) as H.
  destruct (run events _) as [trace st']. cbn [snd].
  destruct H as (_ & _ & H). unfold audible in H.
  destruct (isPlaying (footstepSound st')); [right|left; reflexivity].
  apply H; [cbn; discriminate|reflexivity].
Qed.

(** *** The water and the rig *)

(** Only [updateTsunami] changes the level of the water and the opacity of
    its material. *)
Lemma step_water event (st : State) :
  let t := tsunami (snd (step event st)) in
  let t0 :=
    match event with
    | AnimationFrame _ frame => tsunami (updateTsunami frame st)
    | _ => tsunami st
    end in
  waterLevel t = waterLevel t0 /\
  waterMaterial_opacity t = waterMaterial_opacity t0 /\
  (tsunamiActive (tsunami st) = true -> tsunamiActive t = true).
Proof.
  cbv zeta. destruct event as [frame|model| |]; cbn [City.step snd];
    try solve [repeat split; auto].
  rewrite animate_snd.
  destruct (terrainFollowing_keeps
              (snd (handleMovement frame (updateTsunami frame st))))
    as (Ht & _).
  destruct (updateTsunami_flags frame st) as (Ua & _).
  destruct (handleMovement_tsunami frame (updateTsunami frame st))
    as (Hs & _). cbv zeta in Hs.
  cbn [City.animateLights City.set_accentLights tsunami]. rewrite Ht.
  destruct Hs as [->| ->]; repeat split; auto.
  rewrite Ua. auto.
Qed.

End CityProperties.

(** ** The city in exact arithmetic *)

Section IdealCity.
Import THREE THREE.MathUtils Controls City.
#[local] Existing Instance ideal.
Local Open Scope R_scope.

Ltac in_R :=
  change (@num ideal) with R in *;
  change (@add ideal) with Rplus in *;
  change (@sub ideal) with Rminus in *;
  change (@mul ideal) with Rmult in *;
  change (@div ideal) with Rdiv in *;
  change (@sqrt ideal) with R_sqrt.sqrt in *;
  change (@abs ideal) with Rabs in *;
  change (@ltb ideal) with Real.ltb in *;
  change (@leb ideal) with Real.leb in *;
  change (@truthy ideal) with Real.truthy in *;
  change (@dec ideal) with Real.dec in *.

Variable Object3D : Type.
Variable intersectObject :
  Raycaster -> Object3D -> bool -> list Intersection.

Abbreviation State := (@City.State ideal Object3D).
Abbreviation Event := (@City.Event ideal Object3D).
Abbreviation updateTsunami := (@City.updateTsunami ideal Object3D sin).
Abbreviation step := (City.step intersectObject sin PI).
Abbreviation run := (City.run intersectObject sin PI).
Abbreviation level st := (waterLevel (tsunami (st : State))).

Lemma riseSpeed_ideal : @riseSpeed ideal = 15 / 1000.
Proof. unfold riseSpeed. in_R. unfold Real.dec. simpl. lra. Qed.

Lemma maxWaterLevel_ideal : @maxWaterLevel ideal = 8.
Proof. unfold maxWaterLevel. in_R. unfold Real.dec. simpl. lra. Qed.

Lemma updateTsunami_level frame (st : State) :
  (isPresenting frame = true /\ tsunamiActive (tsunami st) = true /\
   level st < 8 /\
   level (updateTsunami frame st) = level st + 15 / 1000) \/
  ((isPresenting frame = false \/ tsunamiActive (tsunami st) = false \/
    8 <= level st) /\
   updateTsunami frame st = st).
Proof.
  unfold City.updateTsunami.
  destruct (isPresenting frame); cbn [negb]; [|right; auto].
  destruct (tsunamiActive (tsunami st)); cbn [negb]; [|right; auto].
  rewrite maxWaterLevel_ideal, riseSpeed_ideal. in_R.
  destruct (Real.ltb _ _) eqn:E.
  - apply Real.ltb_true in E. left. repeat split. exact E.
  - apply Real.ltb_false in E. right. auto.
Qed.

Lemma step_level event (st : State) :
  let st' := snd (step event st) in
  (tsunamiActive (tsunami st) = true -> tsunamiActive (tsunami st') = true)
  /\
  ((tsunamiActive (tsunami st) = true /\ presentingFrames [event] = 1%nat /\
    level st < 8 /\ level st' = level st + 15 / 1000) \/
   ((tsunamiActive (tsunami st) = false \/ presentingFrames [event] = 0%nat \/
     8 <= level st) /\
    level st' = level st)).
Proof.
  cbv zeta.
  destruct (step_water Object3D intersectObject sin PI event st)
    as (Hl & _ & Ha).
  cbv zeta in Hl. rewrite Hl. split; [exact Ha|].
  destruct event as [frame|model| |]; try solve [right; split; auto].
  cbn [presentingFrames].
  destruct (updateTsunami_level frame st)
    as [(Hp & Hact & Hlt & Hup)|[Hno Hsame]].
  - left. rewrite Hp. auto.
  - right. rewrite Hsame. split; [|reflexivity].
    destruct Hno as [->|[H|H]]; auto.
Qed.

Lemma presentingFrames_cons (event : Event) events :
  presentingFrames (event :: events)
  = (presentingFrames [event] + presentingFrames events)%nat.
Proof.
  destruct event as [frame|model| |]; cbn [presentingFrames];
    [|reflexivity..].
  destruct (isPresenting frame); reflexivity.
Qed.

(** In exact arithmetic the water never falls, a rise ends below
    [maxWaterLevel + riseSpeed], and water at [maxWaterLevel] or above stays
    where it is. *)
Theorem water_never_falls (events : list Event) (st : State) :
  let st' := snd (run events st) in
  level st <= level st' /\
  (level st' = level st \/ level st' < maxWaterLevel + riseSpeed) /\
  (maxWaterLevel <= level st -> level st' = level st).
Proof.
  cbv zeta. rewrite maxWaterLevel_ideal, riseSpeed_ideal. in_R.
  revert st. induction events as [|event events IH]; intros st.
  - cbn. repeat split; auto. lra.
  - rewrite (run_snd_cons Object3D intersectObject sin PI).
    destruct (step_level event st) as (_ & Hs). cbv zeta in Hs.
    destruct (IH (snd (step event st))) as (I1 & I2 & I3).
    destruct Hs as [(_ & _ & Hlt & Hup)|(_ & Hsame)].
    + rewrite Hup in *. repeat split; [lra| |lra].
      destruct I2 as [->|I2]; right; lra.
    + rewrite Hsame in *. auto.
Qed.

(** In exact arithmetic an active tsunami rises by [riseSpeed] in every
    frame of a presenting session, as long as the water was below
    [maxWaterLevel] before the last of them. *)
Theorem water_rises_steadily (events : list Event) (st : State) :
  tsunamiActive (tsunami st) = true ->
  level st + (INR (presentingFrames events) - 1) * riseSpeed
    < maxWaterLevel ->
  level (snd (run events st))
  = level st + INR (presentingFrames events) * riseSpeed.
Proof.
  rewrite maxWaterLevel_ideal, riseSpeed_ideal. in_R.
  revert st. induction events as [|event events IH]; intros st Ha Hlt.
  - cbn. lra.
  - rewrite (run_snd_cons Object3D intersectObject sin PI).
    rewrite presentingFrames_cons, plus_INR in *.
    pose proof (pos_INR (presentingFrames events)) as Hn.
    destruct (step_level event st) as (Hact & Hs). cbv zeta in Hs, Hact.
    specialize (IH (snd (step event st)) (Hact Ha)).
    destruct Hs as [(_ & Hone & _ & Hup)|([H|[Hzero|H]] & Hsame)].
    + rewrite Hup, Hone in *. cbn [INR] in *. rewrite IH; lra.
    + congruence.
    + rewrite Hsame, Hzero in *. cbn [INR] in *. rewrite IH; lra.
    + assert (Hz : INR (presentingFrames [event]) = 0).
      { destruct event as [frame|model| |]; cbn [presentingFrames] in *;
          try reflexivity.
        destruct (isPresenting frame); cbn [Nat.add INR] in *;
          [lra|reflexivity]. }
      rewrite Hsame, Hz in *. rewrite IH; lra.
Qed.

Lemma onStick_height frame g m calls (st : State) :
  y (cameraRig_position (snd (onStick frame g (m, calls, st))))
  = y (cameraRig_position st).
Proof.
  unfold onStick.
  destruct (sample _ _) as [moveDir|] eqn:Hs; [|reflexivity].
  assert (Hy : y (addScaledVector (cameraRig_position st) moveDir (dec 1 1))
               = y (cameraRig_position st)).
  { cbn [addScaledVector y]. rewrite (sample_flat _ _ _ Hs). in_R. ring. }
  cbn [footstepSound lastFootstepTime set_cameraRig_position].
  destruct (buffer _); [|exact Hy].
  destruct (_ >? _)%Z; [|exact Hy].
  destruct (isPlaying _); exact Hy.
Qed.

Lemma handleMovement_height frame (st : State) :
  let st' := snd (handleMovement frame st) in
  y (cameraRig_position st') = y (cameraRig_position st) /\
  currentPlayerHeight st' = currentPlayerHeight st /\
  cityModel st' = cityModel st.
Proof.
  cbv zeta. unfold handleMovement.
  destruct (isPresenting frame); [|auto].
  destruct (getSession frame) as [session|]; [|auto].
  destruct (inputSources session) as [sources|]; [|auto].
  assert (H : forall m calls (st0 : State),
    let st1 := snd (fold_left (onInputSource frame) sources (m, calls, st0)) in
    y (cameraRig_position st1) = y (cameraRig_position st0) /\
    currentPlayerHeight st1 = currentPlayerHeight st0 /\
    cityModel st1 = cityModel st0).
  { induction sources as [|src sources IH]; intros m calls st0;
      cbn [fold_left]; [cbn; auto|].
    assert (H1 :
      let st1 := snd (onInputSource frame (m, calls, st0) src) in
      y (cameraRig_position st1) = y (cameraRig_position st0) /\
      currentPlayerHeight st1 = currentPlayerHeight st0 /\
      cityModel st1 = cityModel st0).
    { cbv zeta. unfold onInputSource.
      destruct (handedness src =? "left")%string; [|cbn; auto].
      destruct (gamepad src) as [g|]; [|cbn; auto].
      destruct (onTrigger_others Object3D g st0) as (Hr & Hc & Hm & _).
      destruct (onStick_keeps Object3D frame g m calls (onTrigger g st0))
        as (_ & _ & Kc & Km). cbv zeta in Kc, Km.
      rewrite onStick_height, Kc, Km, Hr, Hc, Hm. auto. }
    destruct (onInputSource frame (m, calls, st0) src) as [[m1 calls1] st1].
    cbn [snd] in H1. cbv zeta in H1 |- *.
    destruct (IH m1 calls1 st1) as (-> & -> & ->). exact H1. }
  specialize (H false [] st). cbv zeta in H.
  destruct (fold_left _ _ _) as [[m calls] st1]. cbn [snd] in H.
  destruct (negb m && _); exact H.
Qed.

(** In exact arithmetic the rig of the city keeps its first height, 1,
    with [currentPlayerHeight] at 1.6, until the ground is first met under
    it; from then on it is at [currentPlayerHeight]. *)
Theorem city_rig_height (events : list Event) :
  let st := snd (run events (City.init Object3D)) in
  (y (cameraRig_position st) = 1 /\ currentPlayerHeight st = 16 / 10) \/
  y (cameraRig_position st) = currentPlayerHeight st.
Proof.
  set (Q := fun st : State =>
    (y (cameraRig_position st) = 1 /\ currentPlayerHeight st = 16 / 10) \/
    y (cameraRig_position st) = currentPlayerHeight st).
  assert (Hstep : forall event st, Q st -> Q (snd (step event st))).
  { intros [frame|model| |] st Hq; cbn [City.step snd]; try exact Hq.
    rewrite (animate_snd Object3D intersectObject sin PI).
    destruct (@updateTsunami_keeps ideal Object3D sin frame st)
      as (Ur & Uc & _).
    destruct (handleMovement_height frame (updateTsunami frame st))
      as (Hr & Hc & _). cbv zeta in Hr, Hc.
    set (st1 := snd (handleMovement frame (updateTsunami frame st))) in *.
    assert (Q1 : Q st1).
    { unfold Q in *. rewrite Hr, Hc, Ur, Uc. exact Hq. }
    unfold Q, City.animateLights, City.terrainFollowing.
    cbn [cameraRig_position currentPlayerHeight City.set_accentLights].
    destruct (cityModel st1) as [model|]; [|exact Q1].
    destruct (intersectObject _ model true); [exact Q1|].
    right. reflexivity. }
  assert (Hrun : forall st, Q st -> Q (snd (run events st))).
  { induction events as [|event events' IH]; intros st Hq; [exact Hq|].
    rewrite (run_snd_cons Object3D intersectObject sin PI).
    apply IH, Hstep, Hq. }
  apply Hrun. left. cbn. in_R. unfold Real.dec. simpl. split; lra.
Qed.

Lemma wave_between (c x : R) :
  c - 5 / 100 <= c + sin x * Real.dec 5 2 <= c + 5 / 100.
Proof.
  pose proof (SIN_bound x) as [Hlo Hhi]. unfold Real.dec. simpl. lra.
Qed.

(** With the sine for [Math.sin], the opacity of the water stays between
    0.65 and 0.75 and the intensity of each accent light between 0.25 and
    0.35, from the start of the script on. *)
Theorem city_waves_between (events : list Event) :
  let st := snd (run events (City.init Object3D)) in
  65 / 100 <= waterMaterial_opacity (tsunami st) <= 75 / 100 /\
  25 / 100 <= accentLight1_intensity st <= 35 / 100 /\
  25 / 100 <= accentLight2_intensity st <= 35 / 100 /\
  25 / 100 <= accentLight3_intensity st <= 35 / 100.
Proof.
  set (B := fun st : State =>
    65 / 100 <= waterMaterial_opacity (tsunami st) <= 75 / 100 /\
    25 / 100 <= accentLight1_intensity st <= 35 / 100 /\
    25 / 100 <= accentLight2_intensity st <= 35 / 100 /\
    25 / 100 <= accentLight3_intensity st <= 35 / 100).
  assert (Hstep : forall event st, B st -> B (snd (step event st))).
  { intros event st (Ho & Hl).
    destruct (step_water Object3D intersectObject sin PI event st)
      as (_ & Hop & _). cbv zeta in Hop.
    destruct event as [frame|model| |]; cbn [City.step snd] in *;
      try (split; [exact Ho|exact Hl]).
    unfold B. rewrite Hop. split.
    - unfold City.updateTsunami.
      destruct (negb (isPresenting frame)); [exact Ho|].
      destruct (negb (tsunamiActive (tsunami st))); [exact Ho|].
      destruct (@ltb ideal _ _); [|exact Ho].
      cbn [tsunami City.set_tsunami waterMaterial_opacity]. in_R.
      pose proof (wave_between (Real.dec 7 1)
        (Real.dec (Date_now frame) 0 * Real.dec 1 3 * Real.dec 2 0)) as H.
      assert (E : Real.dec 7 1 = 7 / 10) by (unfold Real.dec; simpl; lra).
      lra.
    - rewrite (animate_snd Object3D intersectObject sin PI).
      cbn [City.animateLights City.set_accentLights accentLight1_intensity
        accentLight2_intensity accentLight3_intensity]. in_R.
      assert (H : forall x,
        25 / 100 <= Real.dec 3 1 + sin x * Real.dec 5 2 <= 35 / 100).
      { intros x. pose proof (wave_between (Real.dec 3 1) x) as H.
        assert (E : Real.dec 3 1 = 3 / 10)
          by (unfold Real.dec; simpl; lra).
        lra. }
      repeat split; apply H. }
  assert (Hrun : forall st, B st -> B (snd (run events st))).
  { induction events as [|event events' IH]; intros st Hb; [exact Hb|].
    rewrite (run_snd_cons Object3D intersectObject sin PI).
    apply IH, Hstep, Hb. }
  apply Hrun. unfold B. cbn. in_R. unfold Real.dec. simpl.
  repeat split; lra.
Qed.

End IdealCity.

(** ** The city on a level street *)

Section CityOnStreet.
Import THREE City Streets.
#[local] Existing Instance ideal.
Local Open Scope R_scope.

(** Two frames of walking with the trigger released, the city loaded in
    between: the water stays under the ground. *)
Lemma water_waits_for_trigger_witness :
  let events :=
    [ AnimationFrame unit (frame 0 [leftHand false 0 (-1)]);
      CityLoaded (tt : unit);
      AnimationFrame unit (frame 16 [leftHand false 0 (-1)]) ] in
  tsunami (snd (run (street 0) sin PI events (init unit)))
  = tsunami (init unit).
Proof.
  intros events.
  apply (@water_waits_for_trigger ideal unit (@street ideal 0) sin PI events
           (init unit)).
  - reflexivity.
  - reflexivity.
Defined.

(** Two frames after the tsunami has started under the ground: the water
    is two steps higher. *)
Lemma water_rises_steadily_witness :
  let events :=
    [ AnimationFrame unit (frame 0 []); AnimationFrame unit (frame 16 []) ] in
  waterLevel
    (tsunami (snd (run (street 0) sin PI events (startTsunami (init unit)))))
  = waterLevel (tsunami (startTsunami (init unit)))
    + INR (presentingFrames events) * riseSpeed.
Proof.
  intros events.
  apply (water_rises_steadily unit (@street ideal 0) events
           (startTsunami (init unit))).
  - reflexivity.
  - cbn. unfold Real.dec. simpl. lra.
Defined.

End CityOnStreet.

(** ** The scenes without obstacles *)

Section NoObstacles.
Import THREE.
#[local] Existing Instance js.
Local Open Scope float_scope.

(** Two frames of walking forward in collision.js with no box in the
    way. *)
Lemma collision_without_obstacles_witness :
  let frames :=
    [ Boxes.frame Boxes.identity [Boxes.leftStick 0 (-1)];
      Boxes.frame Boxes.identity [Boxes.leftStick 0 (-1)] ] in
  Collision.cameraRig_position
    (Runs.collision Boxes.intersectObjects [] frames Collision.init)
  = Movement.cameraRig_position
      (Movement.run frames
         {| Movement.cameraRig_position :=
              Collision.cameraRig_position Collision.init |}).
Proof.
  intros frames.
  apply (collision_without_obstacles Boxes.Box Boxes.intersectObjects []
           frames Collision.init).
  intros ray. reflexivity.
Defined.

End NoObstacles.
